(** * Session-summary generator: a shallow embedding of
      [scripts/generate-summary.py] and the properties of its pipeline

    The script reads a JSONL session log, sorts the decoded records into five
    buckets, derives three text sections from the buckets and substitutes them
    into a fixed markdown template.  Every function of that pipeline is
    embedded below under its own name, and the properties claimed for it are
    stated and proved (or refuted at a concrete input) afterwards.

    Modelling conventions.
    - A Python [str] is a [string]; a character of the model stands for one
      code point below 256, so [String.length] is Python's [len].
    - A decoded JSON value is a [json]; a JSON object is a [gmap] from its keys,
      since the script reads objects with [.get] only.
    - A function that can raise returns an [outcome]; the buckets live in a
      record that is threaded through the loops which mutate them.
    - What the script asks of its environment (the decoder, the lines of the
      file, the home directory, the tests and listings of directories) is a
      parameter, and each answer may be an exception; the parser and the
      locator return what leaves them, the exception included, paired with
      what they have printed on standard error. *)

From Stdlib Require Import Ascii Floats.SpecFloat.
From Stdlib Require Import DecimalString DecimalNat DecimalFacts.
From stdpp Require Import gmap strings list fin_maps.

#[local] Set Warnings "-register-all".

(** ** Python values *)

(** What [json.loads] can produce: [None], [bool], [int], [float], [str],
    [list] and [dict] (with [str] keys). *)
Inductive json : Type :=
  | JNull
  | JBool (b : bool)
  | JInt (n : Z)
  | JFloat (f : spec_float)
  | JStr (s : string)
  | JList (l : list json)
  | JDict (d : gmap string json).

(** The exceptions the pipeline can meet on decoded values. *)
Inductive exn : Type := AttributeError | TypeError | KeyError.

Inductive outcome (A : Type) : Type :=
  | Returns (a : A)
  | Raises (e : exn).
Arguments Returns {A} a.
Arguments Raises {A} e.

#[global] Instance outcome_bind : MBind outcome := λ A B f m,
  match m with Returns a => f a | Raises e => Raises e end.
#[global] Instance outcome_fmap : FMap outcome := λ A B f m,
  match m with Returns a => Returns (f a) | Raises e => Raises e end.

(** [for x in xs: body], the body updating a state and possibly raising. *)
Fixpoint for_in {S A : Type} (body : S → A → outcome S) (xs : list A) (s : S)
    : outcome S :=
  match xs with
  | [] => Returns s
  | x :: xs' => s' ← body s x; for_in body xs' s'
  end.

Module Py.

(** [v == s] for a value [v] that came out of [.get] ([None] when the key is
    missing) and a string literal [s]. *)
Definition eq_str (v : option json) (s : string) : bool :=
  match v with
  | Some (JStr t) => String.eqb t s
  | _ => false
  end.

(** [d.get(k)]: the value, [None] (JSON [null]) when the key is missing. *)
Definition get (d : gmap string json) (k : string) : json :=
  default JNull (d !! k).

(** [d.get(k, dflt)]. *)
Definition get_or (d : gmap string json) (k : string) (dflt : json) : json :=
  default dflt (d !! k).

(** Attribute lookup [v.get]: only a [dict] has the method. *)
Definition dict_of (v : json) : outcome (gmap string json) :=
  match v with
  | JDict d => Returns d
  | _ => Raises AttributeError
  end.

(** Truth value of [v] in [if v:]. *)
Definition truthy (v : json) : bool :=
  match v with
  | JNull => false
  | JBool b => b
  | JInt n => negb (n =? 0)%Z
  | JFloat (S754_zero _) => false
  | JFloat _ => true
  | JStr s => negb (String.eqb s "")
  | JList l => negb (Nat.eqb (length l) 0)
  | JDict d => negb (Nat.eqb (size d) 0)
  end.

(** [s[:n]] *)
Fixpoint slice_to (n : nat) (s : string) : string :=
  match n, s with
  | S n', String c s' => String c (slice_to n' s')
  | _, _ => ""
  end.

(** [s[n:]] *)
Fixpoint slice_from (n : nat) (s : string) : string :=
  match n, s with
  | S n', String _ s' => slice_from n' s'
  | _, _ => s
  end.

(** [k in s] for two strings: [k] occurs in [s] as a contiguous run. *)
Fixpoint contains (k s : string) : bool :=
  String.prefix k s ||
  match s with
  | "" => false
  | String _ s' => contains k s'
  end.

(** [str.lower] on one character below 256: the letters A-Z and the
    accented capitals U+00C0-U+00DE (the sign U+00D7 apart) move up by 32. *)
Definition lower_char (c : ascii) : ascii :=
  let n := nat_of_ascii c in
  if ((65 <=? n) && (n <=? 90)) ||
     ((192 <=? n) && (n <=? 222) && negb (n =? 215))
  then ascii_of_nat (n + 32) else c.

Fixpoint lower (s : string) : string :=
  match s with
  | "" => ""
  | String c s' => String (lower_char c) (lower s')
  end.

(** The characters [str.strip] removes: U+0009-U+000D, U+001C-U+0020,
    U+0085 and U+00A0. *)
Definition isspace (c : ascii) : bool :=
  let n := nat_of_ascii c in
  ((9 <=? n) && (n <=? 13)) || ((28 <=? n) && (n <=? 32)) ||
  (n =? 133) || (n =? 160).

Fixpoint lstrip (s : string) : string :=
  match s with
  | String c s' => if isspace c then lstrip s' else s
  | "" => ""
  end.

Definition strip (s : string) : string :=
  String.rev (lstrip (String.rev (lstrip s))).

(** [str(n)] for a length. *)
Definition str_of_nat (n : nat) : string :=
  NilZero.string_of_uint (Nat.to_uint n).

(** ['\n'.join(l)] *)
Definition join_lines (l : list string) : string :=
  String.concat (String "010"%char "") l.

(** [s.replace(old, new)] for an [old] and a [new] of one character each. *)
Fixpoint replace_char (old new : ascii) (s : string) : string :=
  match s with
  | "" => ""
  | String c s' =>
      String (if Ascii.eqb c old then new else c) (replace_char old new s')
  end.

Fixpoint ends_with_slash (p : string) : bool :=
  match p with
  | "" => false
  | String c "" => Ascii.eqb c "/"
  | String _ p' => ends_with_slash p'
  end.

(** [str(Path(p) / segment)] on POSIX, for the string [p] of a path and a
    segment without [/]: an empty segment and [.] add nothing, the empty
    path [.] gives way to the segment, and a separator is put in unless [p]
    ends with one (the roots [/] and [//]). *)
Definition joinpath (p segment : string) : string :=
  if String.eqb segment "" || String.eqb segment "." then p
  else if String.eqb p "." then segment
  else if ends_with_slash p then p +:+ segment
  else p +:+ "/" +:+ segment.

End Py.

(** ** The aggregate *)

(** [{'name': ..., 'input': ...}] *)
Record tool_use : Type := { name : json; input : json }.

(** [{'tool_use_id': ..., 'content': ...}] *)
Record tool_result : Type := { tool_use_id : json; content : json }.

(** The [data] dictionary of [extract_summary_data]: five lists under five
    fixed keys.  The message lists hold whatever the log carried in a
    [content] or [text] position, which is text in a well-formed log. *)
Record data : Type := {
  user_messages : list json;
  assistant_messages : list json;
  tool_uses : list tool_use;
  tool_results : list tool_result;
  errors : list tool_result
}.

Definition empty_data : data :=
  {| user_messages := []; assistant_messages := []; tool_uses := [];
     tool_results := []; errors := [] |}.

Definition append_user (v : json) (d : data) : data :=
  {| user_messages := user_messages d ++ [v];
     assistant_messages := assistant_messages d;
     tool_uses := tool_uses d; tool_results := tool_results d;
     errors := errors d |}.

Definition append_assistant (v : json) (d : data) : data :=
  {| user_messages := user_messages d;
     assistant_messages := assistant_messages d ++ [v];
     tool_uses := tool_uses d; tool_results := tool_results d;
     errors := errors d |}.

Definition append_tool_use (t : tool_use) (d : data) : data :=
  {| user_messages := user_messages d;
     assistant_messages := assistant_messages d;
     tool_uses := tool_uses d ++ [t]; tool_results := tool_results d;
     errors := errors d |}.

Definition append_tool_result (r : tool_result) (d : data) : data :=
  {| user_messages := user_messages d;
     assistant_messages := assistant_messages d;
     tool_uses := tool_uses d; tool_results := tool_results d ++ [r];
     errors := errors d |}.

Definition append_error (r : tool_result) (d : data) : data :=
  {| user_messages := user_messages d;
     assistant_messages := assistant_messages d;
     tool_uses := tool_uses d; tool_results := tool_results d;
     errors := errors d ++ [r] |}.

(** ** [extract_summary_data] *)

(** [msg = event.get('message', event)] *)
Definition message_of (event : gmap string json) : json :=
  Py.get_or event "message" (JDict event).

(** Body of [for item in content] under [role == 'user']. *)
Definition user_item (d : data) (item : json) : data :=
  match item with
  | JDict i =>
      if Py.eq_str (i !! "type") "text"
      then append_user (Py.get_or i "text" (JStr "")) d
      else d
  | JStr s => append_user (JStr s) d
  | _ => d
  end.

(** Body of [for item in content] under [role == 'assistant']. *)
Definition assistant_item (d : data) (item : json) : data :=
  match item with
  | JDict i =>
      if Py.eq_str (i !! "type") "text"
      then append_assistant (Py.get_or i "text" (JStr "")) d
      else if Py.eq_str (i !! "type") "tool_use"
      then append_tool_use {| name := Py.get i "name";
                              input := Py.get i "input" |} d
      else d
  | _ => d
  end.

(** The [if role == 'user': ... elif role == 'assistant': ...] statement. *)
Definition by_role (role : option json) (content : json) (d : data) : data :=
  if Py.eq_str role "user" then
    match content with
    | JStr s => append_user (JStr s) d
    | JList items => foldl user_item d items
    | _ => d
    end
  else if Py.eq_str role "assistant" then
    match content with
    | JStr s => append_assistant (JStr s) d
    | JList items => foldl assistant_item d items
    | _ => d
    end
  else d.

(** The [if event.get('type') == 'tool_result':] statement. *)
Definition by_type (event : gmap string json) (d : data) : data :=
  if Py.eq_str (event !! "type") "tool_result" then
    let result := {| tool_use_id := Py.get event "tool_use_id";
                     content := Py.get event "content" |} in
    let d := if Py.truthy (Py.get event "is_error")
             then append_error result d else d in
    append_tool_result result d
  else d.

(** Body of [for event in events]. *)
Definition process_event (d : data) (event : json) : outcome data :=
  match event with
  | JDict ev =>
      msg ← Py.dict_of (message_of ev);
      let role := msg !! "role" in
      let content := Py.get_or msg "content" (JStr "") in
      Returns (by_type ev (by_role role content d))
  | _ => Returns d
  end.

Definition extract_summary_data (events : list json) : outcome data :=
  for_in process_event events empty_data.

(** ** [generate_current_state] *)

(** The slice [data['assistant_messages'][-3:]] that opens the function is
    bound to a name nothing reads; it cannot raise and is left out. *)
Definition generate_current_state (d : data) : string :=
  let tool_count := length (tool_uses d) in
  let error_count := length (errors d) in
  let state :=
    "**State:** Session with " +:+ Py.str_of_nat tool_count +:+ " actions taken" in
  let state :=
    if 0 <? error_count
    then state +:+ " | **Errors:** " +:+ Py.str_of_nat error_count +:+ " encountered"
    else state +:+ " | **Errors:** None" in
  state +:+ " | **Messages:** " +:+ Py.str_of_nat (length (user_messages d))
        +:+ " exchanges".

(** ** [generate_decisions_section] *)

Definition keywords : list string :=
  ["chose"; "decided"; "selected"; "using"; "rejected"].

(** [any(keyword in msg.lower() for keyword in [...])] *)
Definition mentions_keyword (msg : string) : bool :=
  existsb (λ keyword, Py.contains keyword (Py.lower msg)) keywords.

(** [msg[:200] + '...' if len(msg) > 200 else msg] *)
Definition snippet (msg : string) : string :=
  if 200 <? String.length msg then Py.slice_to 200 msg +:+ "..." else msg.

(** Body of [for msg in data['assistant_messages']]; [msg.lower()] exists on
    text only. *)
Definition decision_step (decisions : list string) (msg : json)
    : outcome (list string) :=
  match msg with
  | JStr s =>
      if mentions_keyword s
      then Returns (decisions ++ ["- " +:+ snippet s])
      else Returns decisions
  | _ => Raises AttributeError
  end.

Definition no_decisions : string :=
  "- No explicit decisions recorded in this session".

(** The list [decisions] as it stands before the final join. *)
Definition decision_list (d : data) : outcome (list string) :=
  decisions ← for_in decision_step (assistant_messages d) [];
  Returns (match decisions with [] => [no_decisions] | _ => decisions end).

Definition generate_decisions_section (d : data) : outcome string :=
  Py.join_lines <$> decision_list d.

(** ** [generate_narrative_section] *)

(** The three variables the [while] loop updates. *)
Record cursor : Type := {
  user_idx : nat;
  assistant_idx : nat;
  narrative : list string
}.

(** What follows a fuelled loop, applied to its result when there is one. *)
Definition after {A B : Type} (f : A → B) (r : option (outcome A))
    : option (outcome B) :=
  match r with
  | Some (Returns a) => Some (Returns (f a))
  | Some (Raises e) => Some (Raises e)
  | None => None
  end.

Section Narrative.

(** [str(v)] for a value that is not text, as an f-string applies it to an
    interpolated value: the interpreter's conversion, taken as given. *)
Variable py_str : json → string.

(** [f"{v}"] *)
Definition interpolate (v : json) : string :=
  match v with
  | JStr s => s
  | _ => py_str v
  end.

(** [if len(msg) > 500: msg = msg[:500] + "..."], then the assistant line.
    [len] exists on text, lists and dicts and is a [TypeError] on the other
    values; a long list slices but does not concatenate with text
    ([TypeError]); a long dict does not slice ([TypeError] on the
    unhashable slice; an interpreter from 3.12 on, where a slice hashes,
    answers [KeyError] instead). *)
Definition assistant_line (msg : json) : outcome string :=
  match msg with
  | JStr s =>
      let s := if 500 <? String.length s
               then Py.slice_to 500 s +:+ "..." else s in
      Returns ("**Assistant:** " +:+ s)
  | JList l =>
      if 500 <? length l then Raises TypeError
      else Returns ("**Assistant:** " +:+ interpolate msg)
  | JDict m =>
      if 500 <? size m then Raises TypeError
      else Returns ("**Assistant:** " +:+ interpolate msg)
  | _ => Raises TypeError
  end.

Definition user_line (msg : json) : string :=
  "**User:** " +:+ interpolate msg.

(** The loop condition. *)
Definition narrative_cond (d : data) (st : cursor) : bool :=
  (user_idx st <? length (user_messages d)) ||
  (assistant_idx st <? length (assistant_messages d)).

(** The loop body; a lookup answers [Some] exactly when the index is below
    the length, which is the test that guards each half. *)
Definition narrative_body (d : data) (st : cursor) : outcome cursor :=
  let st :=
    match user_messages d !! user_idx st with
    | Some msg => {| user_idx := S (user_idx st);
                     assistant_idx := assistant_idx st;
                     narrative := narrative st ++ [user_line msg] |}
    | None => st
    end in
  st ← match assistant_messages d !! assistant_idx st with
       | Some msg =>
           line ← assistant_line msg;
           Returns {| user_idx := user_idx st;
                      assistant_idx := S (assistant_idx st);
                      narrative := narrative st ++ [line] |}
       | None => Returns st
       end;
  Returns {| user_idx := user_idx st; assistant_idx := assistant_idx st;
             narrative := narrative st ++ [""] |}.

(** The [while] loop, run for at most [fuel] iterations: [None] when the
    condition still holds with the fuel used up. *)
Fixpoint narrative_loop (fuel : nat) (d : data) (st : cursor)
    : option (outcome cursor) :=
  if narrative_cond d st then
    match fuel with
    | 0 => None
    | S fuel' =>
        match narrative_body d st with
        | Returns st' => narrative_loop fuel' d st'
        | Raises e => Some (Raises e)
        end
    end
  else Some (Returns st).

(** The list [narrative] when the loop is left. *)
Definition narrative_list (fuel : nat) (d : data)
    : option (outcome (list string)) :=
  after narrative
    (narrative_loop fuel d
       {| user_idx := 0; assistant_idx := 0; narrative := [] |}).

(** Every iteration moves at least one index, so the two lengths together
    are fuel enough (shown below, not assumed). *)
Definition generate_narrative_section (d : data) : option (outcome string) :=
  after Py.join_lines
    (narrative_list
       (length (user_messages d) + length (assistant_messages d)) d).

End Narrative.

(** ** [generate_markdown_summary] *)

(** The fixed text of the template, cut where the four values go in.  The two
    captions carry characters above 255 in the source; they appear here in
    their UTF-8 form. *)
Definition template_head : string := "# Session Summary: ".

Definition template_status : string :=
  Py.join_lines [""; ""; "<!-- Quick scan -->"; ""].

Definition template_decisions : string :=
  Py.join_lines
    [""; ""; "<details>";
     "<summary>ğŸ“‹ Key Decisions (click to expand)</summary>"; ""; ""].

Definition template_narrative : string :=
  Py.join_lines
    [""; ""; "</details>"; ""; "<details>";
     "<summary>ğŸ“– Full Narrative (click for details)</summary>"; ""; ""].

Definition template_foot : string :=
  Py.join_lines
    [""; ""; "</details>"; ""; "---"; "";
     "*Generated automatically by session-summary from Claude Code session logs*";
     ""].

(** The f-string of [generate_markdown_summary]. *)
Definition markdown_template (timestamp current_state decisions narrative : string)
    : string :=
  template_head +:+ timestamp +:+ template_status +:+ current_state +:+
  template_decisions +:+ decisions +:+ template_narrative +:+ narrative +:+
  template_foot.

Section Summary.

Variable py_str : json → string.

Definition generate_markdown_summary (d : data) (timestamp : string)
    : option (outcome string) :=
  let current_state := generate_current_state d in
  match generate_decisions_section d with
  | Raises e => Some (Raises e)
  | Returns decisions =>
      after (markdown_template timestamp current_state decisions)
        (generate_narrative_section py_str d)
  end.

End Summary.

(** ** [parse_session_log] *)

(** The exceptions that nothing in the script catches and that come from
    outside the decoded values: of a file or a directory that cannot be
    opened, read or examined ([OSError]), of a home directory that cannot
    be told ([RuntimeError]), of bytes that are not text in the encoding of
    the file ([UnicodeDecodeError]), and of [json.loads] beside its
    [JSONDecodeError] ([RecursionError] on deep nesting, the plain
    [ValueError] of an integer with too many digits). *)
Inductive escape : Type :=
  | OSError
  | RuntimeError
  | UnicodeDecodeError
  | RecursionError
  | ValueError.

(** Result of [json.loads] on one line: a value, [JSONDecodeError] with its
    message, or another exception, which [except json.JSONDecodeError] lets
    through. *)
Inductive decoded : Type :=
  | Value (v : json)
  | JSONDecodeError (msg : string)
  | Uncaught (e : escape).

(** What the file answers, step by step: to [open] and to each step of
    [for line in f] either the next line or an exception ([OSError] where the
    file cannot be opened or read, [UnicodeDecodeError] where its bytes are
    not text). *)
Inductive read : Type :=
  | Line (line : string)
  | Unreadable (e : escape).

(** What leaves the function: the list [events], or an exception. *)
Inductive parsed : Type :=
  | Events (events : list json)
  | Aborted (e : escape).

Section Parser.

(** The decoder of the [json] module, taken as given. *)
Variable loads : string → decoded.

(** Body of [for line in f]: the events read so far and the warnings
    printed so far, or the exception that leaves the loop. *)
Definition parse_line (acc : list json * list string) (line : string)
    : list json * list string + escape :=
  let line := Py.strip line in
  if negb (String.eqb line "") then
    match loads line with
    | Value v => inl (acc.1 ++ [v], acc.2)
    | JSONDecodeError e =>
        inl (acc.1, acc.2 ++ ["Warning: Failed to parse line: " +:+ e])
    | Uncaught e => inr e
    end
  else inl acc.

(** The loop over the file; an exception ends it and the function, and what
    was printed before stays printed. *)
Fixpoint parse_lines (acc : list json * list string) (log_file : list read)
    : parsed * list string :=
  match log_file with
  | [] => (Events acc.1, acc.2)
  | Unreadable e :: _ => (Aborted e, acc.2)
  | Line line :: rest =>
      match parse_line acc line with
      | inl acc' => parse_lines acc' rest
      | inr e => (Aborted e, acc.2)
      end
  end.

(** The result, paired with what went to standard error. *)
Definition parse_session_log (log_file : list read) : parsed * list string :=
  parse_lines ([], []) log_file.

End Parser.

(** ** [get_claude_project_name] *)

Definition get_claude_project_name (project_dir : string) : string :=
  let claude_name := Py.replace_char "/" "-" project_dir in
  claude_name.

(** ** [find_latest_session_log] *)

(** What leaves the function: the path of a log, [None], or an exception
    that nothing catches. *)
Inductive located : Type :=
  | Found (log_file : string)
  | NotFound
  | Escaped (e : escape).

Section Locator.

(** The type of [st_mtime] and its comparison [a > b]. *)
Context {T : Type}.
Variable gt : T → T → bool.

(** What the function asks of its environment, each answer being [None]
    where the call raises: [str(Path.home())] ([RuntimeError] when the home
    directory cannot be told), [Path(p).exists()] ([OSError] where [stat]
    fails for another reason than a missing entry), and the matches of
    [Path(p).glob('*.jsonl')] in the order [glob] yields them ([OSError]
    where the directory cannot be examined), each with the [st_mtime] that
    [stat] answers ([OSError] where it does not). *)
Variable home : option string.
Variable path_exists : string → option bool.
Variable glob_jsonl : string → option (list (string * option T)).

(** [max(session_files, key=lambda p: p.stat().st_mtime)] once the first
    item and its key are held: a later item replaces the held one when its
    key is greater, and only then. *)
Fixpoint max_by_mtime (latest : string * T) (rest : list (string * option T))
    : located :=
  match rest with
  | [] => Found latest.1
  | (_, None) :: _ => Escaped OSError
  | (p, Some t) :: rest' =>
      max_by_mtime (if gt t latest.2 then (p, t) else latest) rest'
  end.

(** [Path.home() / '.claude' / 'projects' / claude_project_name], from the
    home directory. *)
Definition project_log_dir (home : string) (project_dir : string) : string :=
  let claude_dir := Py.joinpath (Py.joinpath home ".claude") "projects" in
  let claude_project_name := get_claude_project_name project_dir in
  Py.joinpath claude_dir claude_project_name.

(** The result, paired with what went to standard error. *)
Definition find_latest_session_log (project_dir : string)
    : located * list string :=
  match home with
  | None => (Escaped RuntimeError, [])
  | Some home =>
      let project_log_dir := project_log_dir home project_dir in
      match path_exists project_log_dir with
      | None => (Escaped OSError, [])
      | Some false =>
          (NotFound,
           ["No Claude Code session directory found: " +:+ project_log_dir])
      | Some true =>
          match glob_jsonl project_log_dir with
          | None => (Escaped OSError, [])
          | Some [] =>
              (NotFound, ["No session logs found in: " +:+ project_log_dir])
          | Some ((_, None) :: _) => (Escaped OSError, [])
          | Some ((p, Some t) :: rest) => (max_by_mtime (p, t) rest, [])
          end
      end
  end.

End Locator.

(** ** Definitions for the statements

    The definitions of this part are not translations of the script: they
    follow the wording of the specification, or name the inputs and the
    intermediate states the statements speak of.  The theorems further down
    compare them with the functions above. *)

(** A record the classifier can take: not a mapping at all, or a mapping
    whose [message] is absent or a mapping. *)
Definition classifiable (event : json) : bool :=
  match event with
  | JDict ev => if message_of ev is JDict _ then true else false
  | _ => true
  end.

(** A count read back from its decimal rendering. *)
Definition read_count (s : string) : option nat :=
  Nat.of_uint <$> NilZero.uint_of_string s.

(** A text without a line break. *)
Fixpoint one_line (s : string) : bool :=
  match s with
  | "" => true
  | String c s' => negb (Ascii.eqb c "010") && one_line s'
  end.

(** "Truncated to a maximum of [limit] characters with a truncation marker
    appended if the original exceeds that length." *)
Definition truncated (limit : nat) (msg : string) : string :=
  if decide (limit < String.length msg)
  then Py.slice_to limit msg +:+ "..." else msg.

(** The decision list as the specification words it: the messages that
    mention a keyword, in their order, each as one bullet cut at 200
    characters, or the placeholder alone. *)
Definition decision_list_spec (msgs : list string) : list string :=
  match List.filter mentions_keyword msgs with
  | [] => [no_decisions]
  | chosen => (λ msg, "- " +:+ truncated 200 msg) <$> chosen
  end.

(** Round [i] of the merge: the user turn at position [i] if there is one,
    then the assistant turn at position [i] if there is one, then the
    separator. *)
Definition round (users assistants : list string) (i : nat) : list string :=
  option_list ((λ msg, "**User:** " +:+ msg) <$> users !! i) ++
  option_list ((λ msg, "**Assistant:** " +:+ truncated 500 msg)
                 <$> assistants !! i) ++
  [""].

(** The first [n] rounds. *)
Definition rounds (users assistants : list string) (n : nat) : list string :=
  mjoin (round users assistants <$> seq 0 n).

Definition round_robin (users assistants : list string) : list string :=
  rounds users assistants (length users `max` length assistants).

(** The variables of the narrative loop after [i] full iterations. *)
Definition after_rounds (users assistants : list string) (i : nat) : cursor :=
  {| user_idx := i `min` length users;
     assistant_idx := i `min` length assistants;
     narrative := rounds users assistants i |}.

Definition is_turn (line : string) : bool :=
  String.prefix "**User:** " line || String.prefix "**Assistant:** " line.

Definition is_separator (line : string) : bool := String.eqb line "".

Definition count_lines (p : string → bool) (lines : list string) : nat :=
  length (List.filter p lines).

(** A line of white space and nothing else (the empty line included). *)
Fixpoint whitespace_only (s : string) : bool :=
  match s with
  | "" => true
  | String c s' => Py.isspace c && whitespace_only s'
  end.

(** The white space below 256, character by character: the controls
    U+0009 to U+000D and U+001C to U+001F, the space, U+0085 and U+00A0. *)
Definition white_space : list ascii :=
  ["009"; "010"; "011"; "012"; "013"; "028"; "029"; "030"; "031"; " ";
   "133"; "160"]%char.

(** A line made of those characters only (the empty line included). *)
Fixpoint blank_line (s : string) : bool :=
  match s with
  | "" => true
  | String c s' => existsb (Ascii.eqb c) white_space && blank_line s'
  end.

(** The kinds of step of a log: a blank line, a decodable one (what is left
    of it without the surrounding white space decodes), an undecodable one
    (the decoder raises [JSONDecodeError] on it), and a fatal step (the
    file does not give the line, or the decoder raises something else). *)
Inductive line_kind : Type := Blank | Decodable | Undecodable | Fatal.

Definition kind_of (loads : string → decoded) (step : read) : line_kind :=
  match step with
  | Unreadable _ => Fatal
  | Line line =>
      if blank_line line then Blank
      else match loads (Py.strip line) with
           | Value _ => Decodable
           | JSONDecodeError _ => Undecodable
           | Uncaught _ => Fatal
           end
  end.

Definition is_decodable (loads : string → decoded) (step : read) : bool :=
  match kind_of loads step with Decodable => true | _ => false end.

Definition is_undecodable (loads : string → decoded) (step : read) : bool :=
  match kind_of loads step with Undecodable => true | _ => false end.

Definition is_blank (loads : string → decoded) (step : read) : bool :=
  match kind_of loads step with Blank => true | _ => false end.

Definition is_fatal (loads : string → decoded) (step : read) : bool :=
  match kind_of loads step with Fatal => true | _ => false end.

(** A log without a fatal step: the file gives every line, and no line
    makes the decoder raise anything but [JSONDecodeError]. *)
Definition without_fatal (loads : string → decoded) (log_file : list read)
    : bool :=
  forallb (λ step, negb (is_fatal loads step)) log_file.

(** The record a step of the log stands for, if any. *)
Definition record_of (loads : string → decoded) (step : read) : list json :=
  match step with
  | Unreadable _ => []
  | Line line =>
      if blank_line line then []
      else match loads (Py.strip line) with
           | Value v => [v]
           | _ => []
           end
  end.

(** The warning a step of the log stands for, if any. *)
Definition warning_of (loads : string → decoded) (step : read) : list string :=
  match step with
  | Unreadable _ => []
  | Line line =>
      if blank_line line then []
      else match loads (Py.strip line) with
           | JSONDecodeError msg => ["Warning: Failed to parse line: " +:+ msg]
           | _ => []
           end
  end.

(** One run of the parser continued by another: when the first run ends
    with an exception, the second does not take place; when the second
    does, the records of the first are lost with it, and the warnings of
    both have been printed. *)
Definition continued (first second : parsed * list string)
    : parsed * list string :=
  match first.1 with
  | Events events =>
      (match second.1 with
       | Events events' => Events (events ++ events')
       | Aborted e => Aborted e
       end,
       first.2 ++ second.2)
  | Aborted _ => first
  end.

(** The text cut at its line breaks, as [text.split('\n')] cuts it. *)
Fixpoint split_lines (text : string) : list string :=
  match text with
  | "" => [""]
  | String c text' =>
      if Ascii.eqb c "010" then "" :: split_lines text'
      else match split_lines text' with
           | line :: lines => String c line :: lines
           | [] => [String c ""]
           end
  end.

(** [c] is the small letter [k] or its capital. *)
Definition same_letter (c k : ascii) : bool :=
  let n := nat_of_ascii k in
  (97 <=? n) && (n <=? 122) &&
  (Ascii.eqb c k || (nat_of_ascii c + 32 =? n)).

(** [word] spells [keyword], a word of small letters, in capitals, in small
    letters or in a mixture of both. *)
Fixpoint spelled (word keyword : string) : bool :=
  match word, keyword with
  | "", "" => true
  | String c word', String k keyword' =>
      same_letter c k && spelled word' keyword'
  | _, _ => false
  end.

(** A text of [n] times the letter x. *)
Fixpoint letters (n : nat) : string :=
  match n with
  | 0 => ""
  | S n' => String "x" (letters n')
  end.

(** Reading the sections back: the document is cut at the first place where
    each piece of fixed text begins. *)
Fixpoint cut (mark s : string) : option (string * string) :=
  if String.prefix mark s
  then Some ("", Py.slice_from (String.length mark) s)
  else match s with
       | "" => None
       | String c s' =>
           match cut mark s' with
           | Some (before, rest) => Some (String c before, rest)
           | None => None
           end
       end.

Definition strip_suffix (foot s : string) : option string :=
  let n := String.length s - String.length foot in
  if String.eqb (Py.slice_from n s) foot then Some (Py.slice_to n s) else None.

(** The status line, the decision list and the narrative of a document. *)
Definition split_sections (doc : string) : option (string * string * string) :=
  '(_, rest) ← cut template_head doc;
  '(_, rest) ← cut template_status rest;
  '(current_state, rest) ← cut template_decisions rest;
  '(decisions, rest) ← cut template_narrative rest;
  narrative ← strip_suffix template_foot rest;
  Some (current_state, decisions, narrative).

(** [mark] begins nowhere inside [s] when [s] is followed by [mark]. *)
Fixpoint clear_of (mark s : string) : bool :=
  match s with
  | "" => true
  | String c s' => negb (String.prefix mark (s +:+ mark)) && clear_of mark s'
  end.

(** Two aggregates whose documents coincide under one timestamp.  The first
    has a single user message that quotes the fixed text standing between the
    decision list and the narrative; the second has that quotation inside its
    assistant message instead. *)
Definition quoted_reply : string :=
  "No explicit decisions recorded in this session" +:+ template_narrative +:+
  "**User:** using".

Definition quoting_user : data :=
  {| user_messages :=
       [JStr ("using" +:+ template_narrative +:+
              Py.join_lines ["**User:** ok"; "**Assistant:** " +:+ quoted_reply])];
     assistant_messages := [];
     tool_uses := []; tool_results := []; errors := [] |}.

Definition quoting_assistant : data :=
  {| user_messages := [JStr "ok"];
     assistant_messages := [JStr quoted_reply];
     tool_uses := []; tool_results := []; errors := [] |}.

(** Two aggregates end to end, bucket by bucket. *)
Definition data_app (d1 d2 : data) : data :=
  {| user_messages := user_messages d1 ++ user_messages d2;
     assistant_messages := assistant_messages d1 ++ assistant_messages d2;
     tool_uses := tool_uses d1 ++ tool_uses d2;
     tool_results := tool_results d1 ++ tool_results d2;
     errors := errors d1 ++ errors d2 |}.

Definition is_mapping (v : json) : bool :=
  if v is JDict _ then true else false.

Definition is_text (v : json) : bool :=
  if v is JStr _ then true else false.

(** A record of type [tool_result], and one flagged as an error. *)
Definition is_tool_result (event : json) : bool :=
  if event is JDict ev then Py.eq_str (ev !! "type") "tool_result" else false.

Definition is_error_result (event : json) : bool :=
  if event is JDict ev
  then Py.eq_str (ev !! "type") "tool_result" &&
       Py.truthy (Py.get ev "is_error")
  else false.

(** An assistant entry the narrative can size and label: text of any
    length, or a list or a mapping of at most 500 items. *)
Definition sizable (msg : json) : bool :=
  match msg with
  | JStr _ => true
  | JList l => negb (500 <? length l)
  | JDict m => negb (500 <? size m)
  | _ => false
  end.

(** The assistant entries from a given index on. *)
Definition unread (d : data) (st : cursor) : list json :=
  drop (assistant_idx st) (assistant_messages d).

Fixpoint all_digits (s : string) : bool :=
  match s with
  | "" => true
  | String c s' =>
      (if Ascii.is_nat c is Some _ then true else false) && all_digits s'
  end.

(** The last character of a text. *)
Fixpoint last_char (s : string) : option ascii :=
  match s with
  | "" => None
  | String c "" => Some c
  | String _ s' => last_char s'
  end.

(** A text that is not empty and neither begins nor ends with white space. *)
Definition trimmed (s : string) : bool :=
  match s with
  | "" => false
  | String c _ =>
      negb (Py.isspace c) &&
      (if last_char s is Some c' then negb (Py.isspace c') else false)
  end.

(** * Properties *)

(** ** Strings *)

Section Strings.
Implicit Types (s t u mark : string) (c : ascii) (n : nat).

Lemma append_cons c s t : String c s +:+ t = String c (s +:+ t).
Proof. reflexivity. Qed.

Lemma append_nil_r s : s +:+ "" = s.
Proof. induction s as [|c s IH]; [done|]. by rewrite append_cons, IH. Qed.

Lemma append_assoc s t u : (s +:+ t) +:+ u = s +:+ t +:+ u.
Proof. induction s as [|c s IH]; [done|]. by rewrite !append_cons, IH. Qed.

Lemma length_append s t :
  String.length (s +:+ t) = String.length s + String.length t.
Proof. induction s as [|c s IH]; [done|]. rewrite append_cons. simpl. by rewrite IH. Qed.

Lemma prefix_append s t : String.prefix s (s +:+ t) = true.
Proof.
  induction s as [|c s IH]; [by destruct t|].
  rewrite append_cons. simpl. by destruct (ascii_dec c c).
Qed.

Lemma prefix_inv s t : String.prefix s t = true → ∃ u, t = s +:+ u.
Proof.
  revert t. induction s as [|c s IH]; intros t Hpre; [by exists t|].
  destruct t as [|c' t]; [done|]. simpl in Hpre.
  destruct (ascii_dec c c') as [->|]; [|done].
  destruct (IH t Hpre) as [u ->]. by exists u.
Qed.

(** Whether [mark] opens a string is settled by the first characters of it. *)
Lemma prefix_append_long mark s t :
  String.length mark ≤ String.length s →
  String.prefix mark (s +:+ t) = String.prefix mark s.
Proof.
  revert s. induction mark as [|c mark IH]; intros s Hlen.
  { by destruct s, t. }
  destruct s as [|c' s]; simpl in Hlen; [lia|].
  rewrite append_cons. simpl. destruct (ascii_dec c c'); [|done].
  apply IH. lia.
Qed.

Lemma slice_to_append s t : Py.slice_to (String.length s) (s +:+ t) = s.
Proof. induction s as [|c s IH]; [by destruct t|]. rewrite append_cons. simpl. by rewrite IH. Qed.

Lemma slice_from_append s t : Py.slice_from (String.length s) (s +:+ t) = t.
Proof. induction s as [|c s IH]; [by destruct t|]. by rewrite append_cons. Qed.

Lemma slice_to_from n s : Py.slice_to n s +:+ Py.slice_from n s = s.
Proof.
  revert s. induction n as [|n IH]; intros s; [by destruct s|].
  destruct s as [|c s]; [done|]. simpl. by rewrite append_cons, IH.
Qed.

Lemma length_slice_to n s :
  String.length (Py.slice_to n s) = n `min` String.length s.
Proof.
  revert s. induction n as [|n IH]; intros s; [by destruct s|].
  destruct s as [|c s]; [done|]. simpl. by rewrite IH.
Qed.

Lemma contains_cons mark c s :
  Py.contains mark (String c s) =
    String.prefix mark (String c s) || Py.contains mark s.
Proof. reflexivity. Qed.

Lemma contains_nil mark : Py.contains mark "" = String.prefix mark "".
Proof. apply orb_false_r. Qed.

(** [in] on strings is the occurrence of one inside the other. *)
Lemma contains_iff mark s :
  Py.contains mark s = true ↔ ∃ t u, s = t +:+ mark +:+ u.
Proof.
  split.
  - induction s as [|c s IH].
    + rewrite contains_nil. intros [u Hu]%prefix_inv. by exists "", u.
    + rewrite contains_cons. intros [Hpre|Hin]%orb_true_iff.
      * apply prefix_inv in Hpre as [u Hu]. by exists "", u.
      * destruct (IH Hin) as (t & u & ->). by exists (String c t), u.
  - intros (t & u & ->). induction t as [|c t IH].
    + change ("" +:+ mark +:+ u) with (mark +:+ u).
      destruct (mark +:+ u) eqn:Heq.
      * rewrite contains_nil, <- Heq. apply prefix_append.
      * rewrite contains_cons, <- Heq, prefix_append. done.
    + rewrite append_cons, contains_cons, IH. apply orb_true_r.
Qed.

Lemma one_line_append s t : one_line (s +:+ t) = one_line s && one_line t.
Proof.
  induction s as [|c s IH]; [done|]. rewrite append_cons. simpl.
  by rewrite IH, andb_assoc.
Qed.

Lemma one_line_digits (d : Decimal.uint) :
  one_line (NilEmpty.string_of_uint d) = true.
Proof. induction d; simpl; done. Qed.

Lemma one_line_str_of_nat n : one_line (Py.str_of_nat n) = true.
Proof.
  unfold Py.str_of_nat, NilZero.string_of_uint.
  destruct (Nat.to_uint n) eqn:Hn; try done;
    rewrite <- Hn; apply one_line_digits.
Qed.

(** The decimal rendering of a length reads back as that length. *)
Lemma read_count_str_of_nat n : read_count (Py.str_of_nat n) = Some n.
Proof.
  unfold read_count, Py.str_of_nat.
  rewrite NilZero.usu.
  - simpl. by rewrite Unsigned.of_to.
  - rewrite <- (Unsigned.of_to n), Unsigned.to_of.
    apply unorm_nonnil.
Qed.

Lemma lstrip_blank s : whitespace_only s = true → Py.lstrip s = "".
Proof.
  induction s as [|c s IH]; [done|]. simpl.
  intros [-> Hrest]%andb_true_iff. auto.
Qed.

(** What [lstrip] leaves of a line that is not blank opens with a character
    that is not white space. *)
Lemma lstrip_inked s :
  whitespace_only s = false →
  ∃ c t, Py.lstrip s = String c t ∧ Py.isspace c = false.
Proof.
  induction s as [|c s IH]; [done|]. simpl.
  destruct (Py.isspace c) eqn:Hc; simpl; eauto.
Qed.

Lemma whitespace_only_rev_app s t :
  whitespace_only (String.rev_app s t) = whitespace_only s && whitespace_only t.
Proof.
  revert t. induction s as [|c s IH]; intros t; [done|]. simpl.
  rewrite IH. simpl. by destruct (Py.isspace c), (whitespace_only s).
Qed.

Lemma rev_app_nil s t : String.rev_app s t = "" → s = "" ∧ t = "".
Proof.
  revert t. induction s as [|c s IH]; intros t; [done|]. simpl.
  by intros [_ [=]]%IH.
Qed.

(** [strip] leaves nothing exactly of the lines of white space. *)
Lemma strip_blank s : String.eqb (Py.strip s) "" = whitespace_only s.
Proof.
  unfold Py.strip. destruct (whitespace_only s) eqn:Hs.
  - by rewrite (lstrip_blank s Hs).
  - destruct (lstrip_inked s Hs) as (c & t & -> & Hc).
    apply String.eqb_neq. intros Hnil.
    unfold String.rev at 1 in Hnil. apply rev_app_nil in Hnil as [Hnil _].
    destruct (lstrip_inked (String.rev (String c t))) as (c' & t' & Heq & _).
    + unfold String.rev. rewrite whitespace_only_rev_app. simpl.
      by rewrite Hc.
    + by rewrite Heq in Hnil.
Qed.

End Strings.

(** ** Loops *)

Lemma for_in_app {S A : Type} (body : S → A → outcome S) (xs ys : list A) (s : S) :
  for_in body (xs ++ ys) s = for_in body xs s ≫= for_in body ys.
Proof.
  revert s. induction xs as [|x xs IH]; intros s; simpl; [done|].
  destruct (body s x) as [s'|e]; simpl; [apply IH|done].
Qed.

Lemma for_in_snoc {S A : Type} (body : S → A → outcome S) (xs : list A) (x : A)
    (s s' : S) :
  for_in body xs s = Returns s' →
  for_in body (xs ++ [x]) s = body s' x.
Proof.
  intros Hrun. rewrite for_in_app, Hrun. simpl.
  by destruct (body s' x).
Qed.

(** ** The classifier touches one bucket family at a time *)

Lemma user_items_keep (d : data) (items : list json) :
  tool_results (foldl user_item d items) = tool_results d ∧
  errors (foldl user_item d items) = errors d ∧
  assistant_messages (foldl user_item d items) = assistant_messages d.
Proof.
  revert d. induction items as [|item items IH]; intros d; simpl; [done|].
  destruct (IH (user_item d item)) as (-> & -> & ->).
  unfold user_item.
  destruct item as [|b|n|f|s|l|i]; try done.
  by destruct (Py.eq_str (i !! "type") "text").
Qed.

Lemma assistant_items_keep (d : data) (items : list json) :
  tool_results (foldl assistant_item d items) = tool_results d ∧
  errors (foldl assistant_item d items) = errors d ∧
  user_messages (foldl assistant_item d items) = user_messages d.
Proof.
  revert d. induction items as [|item items IH]; intros d; simpl; [done|].
  destruct (IH (assistant_item d item)) as (-> & -> & ->).
  unfold assistant_item.
  destruct item as [|b|n|f|s|l|i]; try done.
  destruct (Py.eq_str (i !! "type") "text"); [done|].
  by destruct (Py.eq_str (i !! "type") "tool_use").
Qed.

Lemma by_role_keeps (role : option json) (content : json) (d : data) :
  tool_results (by_role role content d) = tool_results d ∧
  errors (by_role role content d) = errors d.
Proof.
  unfold by_role.
  destruct (Py.eq_str role "user").
  { destruct content; try done.
    destruct (user_items_keep d l) as (-> & -> & _); done. }
  destruct (Py.eq_str role "assistant"); [|done].
  destruct content; try done.
  destruct (assistant_items_keep d l) as (-> & -> & _); done.
Qed.


(** A record whose [message] is absent or a mapping is classified without an
    exception. *)
Lemma process_event_mapping (d : data) (ev msg : gmap string json) :
  message_of ev = JDict msg →
  process_event d (JDict ev) =
    Returns (by_type ev
               (by_role (msg !! "role") (Py.get_or msg "content" (JStr "")) d)).
Proof. intros Hmsg. unfold process_event. by rewrite Hmsg. Qed.

Lemma process_event_sublist (d d' : data) (event : json) :
  process_event d event = Returns d' →
  errors d `sublist_of` tool_results d →
  errors d' `sublist_of` tool_results d'.
Proof.
  intros Hstep Hsub. destruct event as [|b|n|f|s|l|ev]; simplify_eq/=; try done.
  destruct (Py.dict_of (message_of ev)) as [msg|e]; simplify_eq/=.
  set (d1 := by_role _ _ d).
  destruct (by_role_keeps (msg !! "role") (Py.get_or msg "content" (JStr "")) d)
    as [Hres Herr].
  fold d1 in Hres, Herr. unfold by_type.
  destruct (Py.eq_str (ev !! "type") "tool_result"); [|by rewrite Hres, Herr].
  destruct (Py.truthy (Py.get ev "is_error")); simpl; rewrite Hres, Herr.
  - by apply sublist_app.
  - by apply sublist_inserts_r.
Qed.

Lemma for_in_sublist (events : list json) (d d' : data) :
  for_in process_event events d = Returns d' →
  errors d `sublist_of` tool_results d →
  errors d' `sublist_of` tool_results d'.
Proof.
  revert d. induction events as [|event events IH]; intros d Hrun Hsub.
  - by simplify_eq/=.
  - simpl in Hrun. destruct (process_event d event) as [d1|e] eqn:Hstep;
      simplify_eq/=.
    eapply IH; [done|]. by eapply process_event_sublist.
Qed.

(** The classifier returns on the runs whose records are all classifiable,
    and on no others. *)
Lemma process_event_classifiable (d : data) (event : json) :
  if classifiable event
  then ∃ d', process_event d event = Returns d'
  else process_event d event = Raises AttributeError.
Proof.
  destruct event as [|b|n|f|s|l|ev]; simpl; eauto.
  destruct (message_of ev); simpl; eauto.
Qed.

Lemma extract_returns_iff (events : list json) :
  (∃ d, extract_summary_data events = Returns d) ↔
  forallb classifiable events = true.
Proof.
  unfold extract_summary_data. generalize empty_data.
  induction events as [|event events IH]; intros d; simpl.
  { split; eauto. }
  pose proof (process_event_classifiable d event) as Hstep.
  destruct (classifiable event); simpl.
  - destruct Hstep as [d' ->]. simpl. apply IH.
  - rewrite Hstep. simpl. split; [by intros [? ?]|done].
Qed.

(** ** Extraction *)

(** C1, at the input that breaks it.  A record whose [message] is a string is
    a mapping with a [message] field that is not a mapping; the claim has the
    record itself serve as the effective message and nothing raised, and the
    classifier stops with [AttributeError] instead, whatever records
    surround that one. *)
Theorem extract_raises_on_text_message :
  extract_summary_data [JDict {[ "message" := JStr "hello" ]}]
    = Raises AttributeError ∧
  extract_summary_data
    [JDict {[ "role" := JStr "user"; "content" := JStr "hi" ]};
     JDict {[ "message" := JList [] ; "role" := JStr "user" ]};
     JDict {[ "role" := JStr "user"; "content" := JStr "bye" ]}]
    = Raises AttributeError.
Proof. split; vm_compute; reflexivity. Qed.

(** C2, at the input that breaks it.  A bare string inside the content list of
    an assistant message is dropped, where the claim has it appended to the
    assistant bucket; the same list under the role [user] is appended to the
    user bucket. *)
Theorem assistant_bare_string_dropped :
  extract_summary_data
    [JDict {[ "message" :=
       JDict {[ "role" := JStr "assistant";
                "content" := JList [JStr "hello"] ]} ]}]
    = Returns empty_data ∧
  extract_summary_data
    [JDict {[ "message" :=
       JDict {[ "role" := JStr "user";
                "content" := JList [JStr "hello"] ]} ]}]
    = Returns (append_user (JStr "hello") empty_data).
Proof. split; vm_compute; reflexivity. Qed.

(** C3.  At the end of a run the error bucket is a subsequence of the
    tool-result bucket, hence no longer than it; and one more record of type
    [tool_result] with a truthy [is_error] (its effective message a mapping,
    as the classifier needs of every record) ends the longer run with the
    same descriptor appended once to each of the two buckets. *)
Theorem errors_within_tool_results (events : list json) (d : data) :
  extract_summary_data events = Returns d →
  errors d `sublist_of` tool_results d ∧
  length (errors d) ≤ length (tool_results d) ∧
  ∀ ev msg : gmap string json,
    ev !! "type" = Some (JStr "tool_result") →
    Py.truthy (Py.get ev "is_error") = true →
    message_of ev = JDict msg →
    ∃ d', extract_summary_data (events ++ [JDict ev]) = Returns d' ∧
      let result := {| tool_use_id := Py.get ev "tool_use_id";
                       content := Py.get ev "content" |} in
      errors d' = errors d ++ [result] ∧
      tool_results d' = tool_results d ++ [result].
Proof.
  intros Hrun.
  assert (errors d `sublist_of` tool_results d) as Hsub.
  { eapply for_in_sublist; [exact Hrun|]. simpl. constructor. }
  split_and!; [done|by apply sublist_length|].
  intros ev msg Htype Herr Hmsg. eexists. split.
  - unfold extract_summary_data. erewrite for_in_snoc by exact Hrun.
    by apply process_event_mapping.
  - unfold by_type. rewrite Htype, Herr. simpl.
    destruct (by_role_keeps (msg !! "role")
                (Py.get_or msg "content" (JStr "")) d) as [-> ->]. done.
Qed.

Lemma errors_within_tool_results_witness :
  let ok := JDict {[ "type" := JStr "tool_result"; "tool_use_id" := JStr "t1";
                     "content" := JStr "fine" ]} in
  let bad : gmap string json :=
    {[ "type" := JStr "tool_result"; "tool_use_id" := JStr "t2";
       "content" := JStr "boom"; "is_error" := JBool true ]} in
  ∃ d d', extract_summary_data [ok] = Returns d ∧
    extract_summary_data ([ok] ++ [JDict bad]) = Returns d' ∧
    length (errors d) = 0 ∧ length (tool_results d) = 1 ∧
    length (errors d') = 1 ∧ length (tool_results d') = 2.
Proof.
  intros ok bad.
  pose (d := append_tool_result
               {| tool_use_id := JStr "t1"; content := JStr "fine" |} empty_data).
  assert (extract_summary_data [ok] = Returns d) as Hrun
    by (vm_compute; reflexivity).
  destruct (errors_within_tool_results [ok] d Hrun) as (_ & _ & Hstep).
  destruct (Hstep bad bad) as (d' & Hrun' & Herr & Hres);
    [vm_compute; reflexivity..|].
  exists d, d'. split_and!; [done|done|done|done|..].
  - rewrite Herr. reflexivity.
  - rewrite Hres. reflexivity.
Defined.



(** ** The status line *)

(** C4.  The status generator returns one line, built of fixed text around
    three fields: the decimal length of the tool-invocation bucket, the
    decimal length of the error bucket followed by [encountered] when that
    bucket is not empty and the word [None] when it is, and the decimal
    length of the user bucket.  Each decimal field reads back as the length
    it stands for. *)
Theorem status_reports_bucket_lengths (d : data) :
  ∃ actions errs exchanges : string,
    generate_current_state d =
      "**State:** Session with " +:+ actions +:+
      " actions taken | **Errors:** " +:+ errs +:+
      " | **Messages:** " +:+ exchanges +:+ " exchanges" ∧
    read_count actions = Some (length (tool_uses d)) ∧
    (if decide (0 < length (errors d))
     then ∃ count, errs = count +:+ " encountered" ∧
                   read_count count = Some (length (errors d))
     else errs = "None") ∧
    read_count exchanges = Some (length (user_messages d)) ∧
    one_line (generate_current_state d) = true.
Proof.
  exists (Py.str_of_nat (length (tool_uses d))).
  exists (if 0 <? length (errors d)
          then Py.str_of_nat (length (errors d)) +:+ " encountered" else "None").
  exists (Py.str_of_nat (length (user_messages d))).
  split_and!.
  - unfold generate_current_state.
    destruct (0 <? length (errors d)); rewrite !append_assoc; reflexivity.
  - apply read_count_str_of_nat.
  - case_decide as Hpos.
    + apply Nat.ltb_lt in Hpos as ->. eexists. split; [done|].
      apply read_count_str_of_nat.
    + by apply Nat.ltb_nlt in Hpos as ->.
  - apply read_count_str_of_nat.
  - unfold generate_current_state.
    destruct (0 <? length (errors d));
      rewrite !one_line_append, !one_line_str_of_nat; reflexivity.
Qed.

(** ** The decision list *)

Lemma snippet_truncated (msg : string) : snippet msg = truncated 200 msg.
Proof.
  unfold snippet, truncated. case_decide as Hlen.
  - by apply Nat.ltb_lt in Hlen as ->.
  - by apply Nat.ltb_nlt in Hlen as ->.
Qed.

Lemma mentions_keyword_iff (msg : string) :
  mentions_keyword msg = true ↔
  ∃ keyword t u, keyword ∈ keywords ∧ Py.lower msg = t +:+ keyword +:+ u.
Proof.
  unfold mentions_keyword. rewrite existsb_exists. split.
  - intros (keyword & Hin & (t & u & Hocc)%contains_iff).
    exists keyword, t, u. by rewrite list_elem_of_In.
  - intros (keyword & t & u & Hin & Hocc). exists keyword.
    rewrite <- list_elem_of_In. split; [done|].
    apply contains_iff. eauto.
Qed.

(** The loop over a bucket of texts never raises and keeps, in order, one
    bullet for each text that mentions a keyword. *)
Lemma decision_loop_texts (msgs : list string) (acc : list string) :
  for_in decision_step (JStr <$> msgs) acc =
    Returns (acc ++ ((λ msg, "- " +:+ truncated 200 msg)
                       <$> List.filter mentions_keyword msgs)).
Proof.
  revert acc. induction msgs as [|msg msgs IH]; intros acc; simpl.
  { by rewrite app_nil_r. }
  destruct (mentions_keyword msg); simpl; rewrite IH.
  - by rewrite snippet_truncated, <- app_assoc.
  - done.
Qed.

Lemma decision_list_texts (d : data) (msgs : list string) :
  assistant_messages d = JStr <$> msgs →
  decision_list d = Returns (decision_list_spec msgs).
Proof.
  intros Htexts. unfold decision_list, decision_list_spec.
  rewrite Htexts, decision_loop_texts. simpl.
  by destruct (List.filter mentions_keyword msgs).
Qed.



Lemma lower_app (s t : string) :
  Py.lower (s +:+ t) = Py.lower s +:+ Py.lower t.
Proof.
  induction s as [|c s IH]; [done|].
  rewrite append_cons. simpl. by rewrite append_cons, IH.
Qed.

(** Lowering the case turns the capital of a small letter, and the small
    letter itself, into the small letter. *)
Lemma lower_char_same_letter (c k : ascii) :
  same_letter c k = true → Py.lower_char c = k.
Proof.
  unfold same_letter, Py.lower_char.
  intros [[Hlow%Nat.leb_le Hhigh%Nat.leb_le]%andb_true_iff
          [->%Ascii.eqb_eq|Hcap%Nat.eqb_eq]%orb_true_iff]%andb_true_iff.
  - destruct (_ || _) eqn:Hcase; [|done].
    apply orb_true_iff in Hcase as
      [[_ H%Nat.leb_le]%andb_true_iff
      |[[H%Nat.leb_le _]%andb_true_iff _]%andb_true_iff]; lia.
  - assert ((65 <=? nat_of_ascii c) && (nat_of_ascii c <=? 90) = true) as ->.
    { apply andb_true_iff. split; apply Nat.leb_le; lia. }
    simpl. rewrite Hcap. apply ascii_nat_embedding.
Qed.

Lemma lower_spelled (word keyword : string) :
  spelled word keyword = true → Py.lower word = keyword.
Proof.
  revert keyword. induction word as [|c word IH]; intros [|k keyword]; try done.
  simpl. intros [Hc Hrest]%andb_true_iff.
  by rewrite (lower_char_same_letter c k Hc), (IH keyword Hrest).
Qed.

(** A line of a list stands in the join of the list. *)
Lemma contains_join (line : string) (lines : list string) :
  line ∈ lines → Py.contains line (Py.join_lines lines) = true.
Proof.
  intros Hin. apply contains_iff. unfold Py.join_lines.
  induction lines as [|first lines IH]; [by apply elem_of_nil in Hin|].
  destruct lines as [|second lines].
  - apply list_elem_of_singleton in Hin as ->. exists "", "". simpl.
    by rewrite append_nil_r.
  - apply elem_of_cons in Hin as [->|Hin].
    + exists "". by eexists.
    + destruct (IH Hin) as (t & u & Heq). simpl in Heq |- *. rewrite Heq.
      exists (first +:+ String "010" "" +:+ t), u. by rewrite !append_assoc.
Qed.

(** C9.  Detection is containment without regard for case or for word
    boundaries: a text of the assistant bucket that holds a keyword spelled
    with capitals, small letters or both, whatever stands before and after
    it in the text, has its bullet in the decision list and in the text the
    generator returns. *)
Theorem keyword_inside_longer_word (d : data) (msgs : list string)
    (msg keyword before word behind : string) :
  assistant_messages d = JStr <$> msgs →
  msg ∈ msgs →
  keyword ∈ keywords →
  spelled word keyword = true →
  msg = before +:+ word +:+ behind →
  ∃ lines section,
    decision_list d = Returns lines ∧
    ("- " +:+ snippet msg) ∈ lines ∧
    generate_decisions_section d = Returns section ∧
    Py.contains ("- " +:+ snippet msg) section = true.
Proof.
  intros Htexts Hmsg Hkey Hword ->.
  exists (decision_list_spec msgs), (Py.join_lines (decision_list_spec msgs)).
  pose proof (decision_list_texts d msgs Htexts) as Hlist.
  assert (("- " +:+ snippet (before +:+ word +:+ behind))
            ∈ decision_list_spec msgs) as Hin.
  { assert ((before +:+ word +:+ behind)
              ∈ List.filter mentions_keyword msgs) as Hchosen.
    { apply list_elem_of_In, filter_In. split; [by apply list_elem_of_In|].
      apply mentions_keyword_iff.
      exists keyword, (Py.lower before), (Py.lower behind). split; [done|].
      by rewrite !lower_app, (lower_spelled word keyword Hword). }
    unfold decision_list_spec.
    destruct (List.filter mentions_keyword msgs) as [|m chosen] eqn:Hfilter.
    { by apply elem_of_nil in Hchosen. }
    rewrite snippet_truncated.
    by apply (list_elem_of_fmap_2 (λ msg, "- " +:+ truncated 200 msg)). }
  split_and!; [done|done| |by apply contains_join].
  unfold generate_decisions_section. by rewrite Hlist.
Qed.

Lemma keyword_inside_longer_word_witness :
  let d := {| user_messages := [];
              assistant_messages :=
                [JStr "REFUSING to touch the lock file";
                 JStr "fine";
                 JStr "Reusing the old parser"];
              tool_uses := []; tool_results := []; errors := [] |} in
  decision_list d =
    Returns ["- REFUSING to touch the lock file"; "- Reusing the old parser"].
Proof.
  intros d.
  pose (msgs := ["REFUSING to touch the lock file"; "fine";
                 "Reusing the old parser"]).
  destruct (keyword_inside_longer_word d msgs
              "REFUSING to touch the lock file" "using" "REF" "USING"
              " to touch the lock file")
    as (lines & section & Hlist & Hin & _);
    [reflexivity|set_solver|set_solver|reflexivity|reflexivity|].
  destruct (keyword_inside_longer_word d msgs
              "Reusing the old parser" "using" "Re" "using" " the old parser")
    as (lines' & section' & Hlist' & Hin' & _);
    [reflexivity|set_solver|set_solver|reflexivity|reflexivity|].
  rewrite Hlist. vm_compute in Hlist. by injection Hlist as <-.
Defined.

(** ** The narrative *)

Lemma truncated_short (limit : nat) (msg : string) :
  String.length msg ≤ limit → truncated limit msg = msg.
Proof. intros Hlen. unfold truncated. case_decide; [lia|done]. Qed.

Lemma truncated_long (limit : nat) (msg : string) :
  limit < String.length msg →
  truncated limit msg = Py.slice_to limit msg +:+ "..." ∧
  String.length (Py.slice_to limit msg) = limit ∧
  ∃ rest, msg = Py.slice_to limit msg +:+ rest.
Proof.
  intros Hlen. unfold truncated. case_decide; [|lia]. split_and!.
  - done.
  - rewrite length_slice_to. lia.
  - exists (Py.slice_from limit msg). by rewrite slice_to_from.
Qed.

Lemma rounds_S (users assistants : list string) (i : nat) :
  rounds users assistants (S i) =
    rounds users assistants i ++ round users assistants i.
Proof.
  unfold rounds. rewrite seq_S, fmap_app, join_app. simpl.
  by rewrite app_nil_r.
Qed.

Lemma count_lines_app (p : string → bool) (l k : list string) :
  count_lines p (l ++ k) = count_lines p l + count_lines p k.
Proof. unfold count_lines. by rewrite List.filter_app, length_app. Qed.

Lemma user_turn_is_turn (msg : string) :
  is_turn ("**User:** " +:+ msg) = true ∧
  is_separator ("**User:** " +:+ msg) = false.
Proof. unfold is_turn. by rewrite prefix_append. Qed.

Lemma assistant_turn_is_turn (msg : string) :
  is_turn ("**Assistant:** " +:+ msg) = true ∧
  is_separator ("**Assistant:** " +:+ msg) = false.
Proof. unfold is_turn. by rewrite (prefix_append "**Assistant:** "), orb_true_r. Qed.

(** A round holds one turn for each bucket that reaches its position, and one
    separator. *)
Lemma count_round (users assistants : list string) (i : nat) :
  count_lines is_turn (round users assistants i) =
    (if decide (i < length users) then 1 else 0) +
    (if decide (i < length assistants) then 1 else 0) ∧
  count_lines is_separator (round users assistants i) = 1.
Proof.
  unfold round. rewrite !count_lines_app.
  destruct (users !! i) as [u|] eqn:Hu; destruct (assistants !! i) as [a|] eqn:Ha;
    simpl option_list; unfold count_lines; simpl List.filter;
    repeat match goal with
    | |- context [is_turn ("**User:** " +:+ ?m)] =>
        rewrite (proj1 (user_turn_is_turn m))
    | |- context [is_separator ("**User:** " +:+ ?m)] =>
        rewrite (proj2 (user_turn_is_turn m))
    | |- context [is_turn ("**Assistant:** " +:+ ?m)] =>
        rewrite (proj1 (assistant_turn_is_turn m))
    | |- context [is_separator ("**Assistant:** " +:+ ?m)] =>
        rewrite (proj2 (assistant_turn_is_turn m))
    end;
    try apply lookup_lt_Some in Hu; try apply lookup_lt_Some in Ha;
    try apply lookup_ge_None in Hu; try apply lookup_ge_None in Ha;
    repeat case_decide; try lia; done.
Qed.

Lemma count_rounds (users assistants : list string) (i : nat) :
  count_lines is_turn (rounds users assistants i) =
    i `min` length users + i `min` length assistants ∧
  count_lines is_separator (rounds users assistants i) = i.
Proof.
  induction i as [|i [IHturn IHsep]]; [done|].
  rewrite rounds_S, !count_lines_app, IHturn, IHsep.
  destruct (count_round users assistants i) as [-> ->].
  repeat case_decide; lia.
Qed.

Section NarrativeFacts.

Variable py_str : json → string.
Variables (d : data) (users assistants : list string).
Hypothesis user_texts : user_messages d = JStr <$> users.
Hypothesis assistant_texts : assistant_messages d = JStr <$> assistants.

Lemma narrative_cond_rounds (i : nat) :
  narrative_cond d (after_rounds users assistants i) =
    bool_decide (i < length users `max` length assistants).
Proof.
  unfold narrative_cond. rewrite user_texts, assistant_texts, !length_fmap.
  simpl. case_bool_decide as Hlt.
  - apply orb_true_iff.
    destruct (decide (i < length users)); [left|right]; apply Nat.ltb_lt; lia.
  - apply orb_false_iff. split; apply Nat.ltb_nlt; lia.
Qed.

Lemma assistant_line_text (msg : string) :
  assistant_line py_str (JStr msg) =
    Returns ("**Assistant:** " +:+ truncated 500 msg).
Proof.
  unfold assistant_line, truncated. case_decide as Hlen.
  - by apply Nat.ltb_lt in Hlen as ->.
  - by apply Nat.ltb_nlt in Hlen as ->.
Qed.

(** One iteration from any indices: each bucket that still has a message at
    its index gives a line and moves on. *)
Lemma narrative_body_texts (st : cursor) :
  narrative_body py_str d st =
    Returns
      {| user_idx := if users !! user_idx st is Some _
                     then S (user_idx st) else user_idx st;
         assistant_idx := if assistants !! assistant_idx st is Some _
                          then S (assistant_idx st) else assistant_idx st;
         narrative :=
           narrative st ++
           option_list ((λ msg, "**User:** " +:+ msg)
                          <$> users !! user_idx st) ++
           option_list ((λ msg, "**Assistant:** " +:+ truncated 500 msg)
                          <$> assistants !! assistant_idx st) ++
           [""] |}.
Proof.
  unfold narrative_body.
  rewrite user_texts, assistant_texts, !list_lookup_fmap.
  destruct (users !! user_idx st) as [u|];
    cbn [fmap option_fmap option_map option_list user_idx assistant_idx
         narrative];
    destruct (assistants !! assistant_idx st) as [a|];
    cbn [fmap option_fmap option_map option_list user_idx assistant_idx
         narrative];
    rewrite ?assistant_line_text; simpl; by rewrite <- ?app_assoc.
Qed.

Lemma lookup_min (l : list string) (i : nat) :
  l !! (i `min` length l) = l !! i ∧
  (if l !! i is Some _ then S (i `min` length l) else i `min` length l)
    = S i `min` length l.
Proof.
  destruct (decide (i < length l)) as [Hlt|Hge].
  - rewrite (Nat.min_l i) by lia.
    destruct (lookup_lt_is_Some_2 l i Hlt) as [x ->]. split; [done|lia].
  - rewrite (Nat.min_r i) by lia.
    rewrite (lookup_ge_None_2 l (length l)), (lookup_ge_None_2 l i) by lia.
    split; [done|lia].
Qed.

Lemma narrative_body_rounds (i : nat) :
  narrative_body py_str d (after_rounds users assistants i) =
    Returns (after_rounds users assistants (S i)).
Proof.
  rewrite narrative_body_texts. unfold after_rounds.
  cbn [user_idx assistant_idx narrative].
  destruct (lookup_min users i) as [-> ->].
  destruct (lookup_min assistants i) as [-> ->].
  by rewrite rounds_S.
Qed.

(** Started after [i] rounds with the fuel for the rounds that are left, the
    loop is left by its condition, after the last round. *)
Lemma narrative_loop_rounds (fuel i : nat) :
  i ≤ length users `max` length assistants →
  length users `max` length assistants - i ≤ fuel →
  narrative_loop py_str fuel d (after_rounds users assistants i) =
    Some (Returns (after_rounds users assistants
                     (length users `max` length assistants))).
Proof.
  revert i. induction fuel as [|fuel IH]; intros i Hle Hfuel.
  - assert (i = length users `max` length assistants) as -> by lia.
    simpl. rewrite narrative_cond_rounds, bool_decide_eq_false_2 by lia. done.
  - simpl. rewrite narrative_cond_rounds. case_bool_decide as Hlt.
    + rewrite narrative_body_rounds. apply IH; lia.
    + by assert (i = length users `max` length assistants) as -> by lia.
Qed.

Lemma narrative_list_rounds (fuel : nat) :
  length users `max` length assistants ≤ fuel →
  narrative_list py_str fuel d = Some (Returns (round_robin users assistants)).
Proof.
  intros Hfuel. unfold narrative_list.
  change {| user_idx := 0; assistant_idx := 0; narrative := [] |}
    with (after_rounds users assistants 0).
  rewrite narrative_loop_rounds by lia. done.
Qed.

End NarrativeFacts.

(** The join is the lines, each followed by a line break, less the last
    break. *)
Lemma join_lines_breaks (lines : list string) :
  lines ≠ [] →
  Py.join_lines lines +:+ String "010" "" =
    String.concat "" ((λ line, line +:+ String "010" "") <$> lines).
Proof.
  unfold Py.join_lines. induction lines as [|first lines IH]; [done|].
  intros _. destruct lines as [|second lines]; [done|].
  specialize (IH ltac:(done)).
  change (String.concat (String "010" "") (first :: second :: lines))
    with (first +:+ String "010" "" +:+
            String.concat (String "010" "") (second :: lines)).
  rewrite !append_assoc, IH. cbn [fmap list_fmap String.concat].
  rewrite (append_assoc first). reflexivity.
Qed.

Lemma split_lines_one_line (line : string) :
  one_line line = true → split_lines line = [line].
Proof.
  induction line as [|c line IH]; [done|]. simpl.
  intros [Hc Hline]%andb_true_iff. apply negb_true_iff in Hc.
  by rewrite Hc, (IH Hline).
Qed.

Lemma split_lines_break (line rest : string) :
  one_line line = true →
  split_lines (line +:+ String "010" rest) = line :: split_lines rest.
Proof.
  induction line as [|c line IH]; [done|].
  rewrite append_cons. simpl.
  intros [Hc Hline]%andb_true_iff. apply negb_true_iff in Hc.
  by rewrite Hc, (IH Hline).
Qed.

(** Cutting the join of lines without a line break gives the lines back. *)
Lemma split_join_lines (lines : list string) :
  lines ≠ [] →
  Forall (λ line, one_line line = true) lines →
  split_lines (Py.join_lines lines) = lines.
Proof.
  unfold Py.join_lines. induction lines as [|first lines IH]; [done|].
  intros _ [Hfirst Hrest]%Forall_cons. destruct lines as [|second lines].
  - by apply split_lines_one_line.
  - specialize (IH ltac:(done) Hrest).
    change (String.concat (String "010" "") (first :: second :: lines))
      with (first +:+ String "010"
              (String.concat (String "010" "") (second :: lines))).
    by rewrite split_lines_break, IH.
Qed.

Lemma one_line_slice_to (n : nat) (s : string) :
  one_line s = true → one_line (Py.slice_to n s) = true.
Proof.
  revert s. induction n as [|n IH]; intros [|c s]; try done. simpl.
  intros [-> Hs]%andb_true_iff. by apply IH.
Qed.

Lemma one_line_truncated (limit : nat) (msg : string) :
  one_line msg = true → one_line (truncated limit msg) = true.
Proof.
  intros Hmsg. unfold truncated. case_decide; [|done].
  by rewrite one_line_append, one_line_slice_to.
Qed.

Lemma one_line_rounds (users assistants : list string) (n : nat) :
  Forall (λ msg, one_line msg = true) users →
  Forall (λ msg, one_line msg = true) assistants →
  Forall (λ line, one_line line = true) (rounds users assistants n).
Proof.
  intros Husers Hassistants. induction n as [|n IH]; [constructor|].
  rewrite rounds_S. apply Forall_app_2; [exact IH|]. unfold round.
  apply Forall_app_2; [|apply Forall_app_2].
  - destruct (users !! n) as [u|] eqn:Hu; [|constructor].
    apply Forall_singleton. rewrite one_line_append.
    apply andb_true_iff. split; [reflexivity|].
    exact (Forall_lookup_1 _ _ _ _ Husers Hu).
  - destruct (assistants !! n) as [a|] eqn:Ha; [|constructor].
    apply Forall_singleton. rewrite one_line_append.
    apply andb_true_iff. split; [reflexivity|].
    apply one_line_truncated. exact (Forall_lookup_1 _ _ _ _ Hassistants Ha).
  - apply Forall_singleton. reflexivity.
Qed.

(** C6.  On an aggregate whose two message buckets hold texts, the narrative
    generator returns the join of the round-robin merge by position: round
    [i] is the user message at [i] in full behind its label (when the user
    bucket reaches [i]), the assistant message at [i] behind its label (when
    the assistant bucket reaches [i]), and an empty separator line.  An
    assistant message of more than 500 characters is cut to its first 500
    and followed by the marker; a shorter one, and every user message, is
    left whole.  The merge has as many turn lines as the two buckets have
    messages, and as many separator lines as the longer bucket has
    messages.  The text returned is the lines of the merge, each followed
    by a line break, less the last break; when no message holds a line
    break, cutting the text at its line breaks gives the merge back.  The
    loop needs no more iterations than the longer bucket has messages to be
    left by its condition. *)
Theorem narrative_is_round_robin (py_str : json → string) (d : data)
    (users assistants : list string) :
  user_messages d = JStr <$> users →
  assistant_messages d = JStr <$> assistants →
  let lines := round_robin users assistants in
  let text := Py.join_lines lines in
  generate_narrative_section py_str d = Some (Returns text) ∧
  (∀ fuel, length users `max` length assistants ≤ fuel →
     narrative_list py_str fuel d = Some (Returns lines)) ∧
  (lines ≠ [] →
     text +:+ String "010" "" =
       String.concat "" ((λ line, line +:+ String "010" "") <$> lines)) ∧
  (lines ≠ [] →
     Forall (λ msg, one_line msg = true) users →
     Forall (λ msg, one_line msg = true) assistants →
     split_lines text = lines) ∧
  count_lines is_turn lines = length users + length assistants ∧
  count_lines is_separator lines = length users `max` length assistants ∧
  (∀ i msg, users !! i = Some msg →
     ("**User:** " +:+ msg) ∈ round users assistants i) ∧
  (∀ i msg, assistants !! i = Some msg →
     ("**Assistant:** " +:+ truncated 500 msg) ∈ round users assistants i) ∧
  (∀ msg, String.length msg ≤ 500 → truncated 500 msg = msg) ∧
  (∀ msg, 500 < String.length msg →
     truncated 500 msg = Py.slice_to 500 msg +:+ "..." ∧
     String.length (Py.slice_to 500 msg) = 500 ∧
     ∃ rest, msg = Py.slice_to 500 msg +:+ rest).
Proof.
  intros Husers Hassistants lines text. split_and!.
  - unfold generate_narrative_section.
    rewrite (narrative_list_rounds py_str d users assistants) by
      (try done; rewrite Husers, Hassistants, !length_fmap; lia).
    done.
  - intros fuel Hfuel. by apply narrative_list_rounds.
  - apply join_lines_breaks.
  - intros Hlines Hu Ha. apply split_join_lines; [done|].
    by apply one_line_rounds.
  - unfold lines, round_robin.
    destruct (count_rounds users assistants
                (length users `max` length assistants)) as [-> _]. lia.
  - unfold lines, round_robin.
    by destruct (count_rounds users assistants
                   (length users `max` length assistants)) as [_ ->].
  - intros i msg Hmsg. unfold round. rewrite Hmsg. set_solver.
  - intros i msg Hmsg. unfold round. rewrite Hmsg. set_solver.
  - intros msg. apply truncated_short.
  - intros msg. apply truncated_long.
Qed.

Lemma narrative_is_round_robin_witness :
  let d := {| user_messages := [JStr "hi"; JStr "and then?"];
              assistant_messages := [JStr (letters 600)];
              tool_uses := []; tool_results := []; errors := [] |} in
  generate_narrative_section (λ _, "") d =
    Some (Returns (Py.join_lines
      ["**User:** hi"; "**Assistant:** " +:+ letters 500 +:+ "..."; "";
       "**User:** and then?"; ""])) ∧
  split_lines
    (Py.join_lines
       ["**User:** hi"; "**Assistant:** " +:+ letters 500 +:+ "..."; "";
        "**User:** and then?"; ""])
    = ["**User:** hi"; "**Assistant:** " +:+ letters 500 +:+ "..."; "";
       "**User:** and then?"; ""].
Proof.
  intros d.
  destruct (narrative_is_round_robin (λ _, "") d ["hi"; "and then?"]
              [letters 600] eq_refl eq_refl)
    as (Htext & _ & _ & Hsplit & _).
  assert (round_robin ["hi"; "and then?"] [letters 600] =
          ["**User:** hi"; "**Assistant:** " +:+ letters 500 +:+ "..."; "";
           "**User:** and then?"; ""]) as Hlines
    by (vm_compute; reflexivity).
  rewrite Hlines in Htext, Hsplit. split; [exact Htext|].
  apply Hsplit; [done|repeat constructor|repeat constructor].
Defined.

(** ** The parser *)

Section ParserFacts.

Variable loads : string → decoded.

(** The table of white space is the test of the code. *)
Lemma isspace_white_space (c : ascii) :
  Py.isspace c = existsb (Ascii.eqb c) white_space.
Proof. by destruct c as [[] [] [] [] [] [] [] []]. Qed.

Lemma blank_line_whitespace_only (s : string) :
  blank_line s = whitespace_only s.
Proof.
  induction s as [|c s IH]; [done|].
  cbn [blank_line whitespace_only]. by rewrite IH, isspace_white_space.
Qed.

Lemma parse_line_kind (acc : list json * list string) (line : string) :
  match kind_of loads (Line line) with
  | Blank => parse_line loads acc line = inl acc
  | Decodable =>
      ∃ v, loads (Py.strip line) = Value v ∧
           parse_line loads acc line = inl (acc.1 ++ [v], acc.2)
  | Undecodable =>
      ∃ msg, loads (Py.strip line) = JSONDecodeError msg ∧
             parse_line loads acc line =
               inl (acc.1, acc.2 ++ ["Warning: Failed to parse line: " +:+ msg])
  | Fatal =>
      ∃ e, loads (Py.strip line) = Uncaught e ∧
           parse_line loads acc line = inr e
  end.
Proof.
  unfold kind_of, parse_line. rewrite strip_blank, blank_line_whitespace_only.
  destruct (whitespace_only line); simpl; [done|].
  destruct (loads (Py.strip line)) as [v|msg|e]; eauto.
Qed.

Lemma continued_assoc (a b c : parsed * list string) :
  continued a (continued b c) = continued (continued a b) c.
Proof.
  destruct a as [[ea|e] wa], b as [[eb|e'] wb], c as [[ec|e''] wc];
    unfold continued; simpl; by rewrite ?app_assoc.
Qed.

(** What the loop adds does not depend on what was read before. *)
Lemma parse_lines_acc (acc : list json * list string) (log_file : list read) :
  parse_lines loads acc log_file =
    continued (Events acc.1, acc.2) (parse_session_log loads log_file).
Proof.
  unfold parse_session_log. revert acc.
  induction log_file as [|[line|e] log_file IH]; intros [events warnings];
    cbn [parse_lines fst snd].
  - unfold continued. simpl. by rewrite !app_nil_r.
  - pose proof (parse_line_kind (events, warnings) line) as Hacc.
    pose proof (parse_line_kind ([], []) line) as Hnil.
    destruct (kind_of loads (Line line)).
    + rewrite Hacc, Hnil. apply IH.
    + destruct Hacc as (v & Hv & ->), Hnil as (v' & Hv' & ->).
      rewrite Hv in Hv'. injection Hv' as <-. simpl.
      rewrite IH, (IH ([v], [])), continued_assoc. f_equal.
      unfold continued. simpl. by rewrite app_nil_r.
    + destruct Hacc as (msg & Hmsg & ->), Hnil as (msg' & Hmsg' & ->).
      rewrite Hmsg in Hmsg'. injection Hmsg' as <-. simpl.
      rewrite IH, (IH ([], [_])), continued_assoc. f_equal.
      unfold continued. simpl. by rewrite app_nil_r.
    + destruct Hacc as (e & He & ->), Hnil as (e' & He' & ->).
      rewrite He in He'. injection He' as <-.
      unfold continued. simpl. by rewrite app_nil_r.
  - unfold continued. simpl. by rewrite app_nil_r.
Qed.

Lemma parse_lines_app (acc : list json * list string) (a b : list read) :
  parse_lines loads acc (a ++ b) =
    match parse_lines loads acc a with
    | (Events events, warnings) => parse_lines loads (events, warnings) b
    | aborted => aborted
    end.
Proof.
  revert acc. induction a as [|[line|e] a IH]; intros [events warnings];
    cbn [parse_lines app fst snd]; [done| |done].
  destruct (parse_line loads (events, warnings) line) as [acc'|e]; [|done].
  apply IH.
Qed.

Lemma parse_session_log_app (a b : list read) :
  parse_session_log loads (a ++ b) =
    continued (parse_session_log loads a) (parse_session_log loads b).
Proof.
  unfold parse_session_log at 1. rewrite parse_lines_app.
  fold (parse_session_log loads a).
  destruct (parse_session_log loads a) as [[events|e] warnings]; [|done].
  apply parse_lines_acc.
Qed.

(** One step in front of a log. *)
Lemma parse_session_log_cons (step : read) (log_file : list read) :
  parse_session_log loads (step :: log_file) =
    match kind_of loads step with
    | Fatal => parse_session_log loads [step]
    | _ => continued (Events (record_of loads step), warning_of loads step)
             (parse_session_log loads log_file)
    end.
Proof.
  change (step :: log_file) with ([step] ++ log_file).
  rewrite parse_session_log_app.
  destruct step as [line|e]; [|done].
  unfold parse_session_log. cbn [parse_lines fst snd].
  pose proof (parse_line_kind ([], []) line) as Hline.
  unfold record_of, warning_of. unfold kind_of in *.
  destruct (blank_line line); [by rewrite Hline|].
  destruct (loads (Py.strip line)) as [v|msg|e].
  - destruct Hline as (v' & [= <-] & ->). done.
  - destruct Hline as (msg' & [= <-] & ->). done.
  - destruct Hline as (e' & [= <-] & ->). done.
Qed.

(** A fatal step ends the run with its exception. *)
Lemma parse_fatal_step (step : read) :
  is_fatal loads step = true →
  ∃ e, parse_session_log loads [step] = (Aborted e, []) ∧
       match step with
       | Unreadable e' => e' = e
       | Line line => loads (Py.strip line) = Uncaught e
       end.
Proof.
  unfold is_fatal. destruct step as [line|e]; [|by exists e].
  pose proof (parse_line_kind ([], []) line) as Hline.
  destruct (kind_of loads (Line line)); try done.
  destruct Hline as (e & He & Hline). intros _. exists e.
  unfold parse_session_log. cbn [parse_lines]. by rewrite Hline.
Qed.

Lemma join_fmap_cons {A B : Type} (f : A → list B) (x : A) (l : list A) :
  mjoin (f <$> x :: l) = f x ++ mjoin (f <$> l).
Proof. done. Qed.

(** A log without a fatal step is read to its end, and what is returned and
    printed is what its steps stand for, in their order. *)
Lemma parse_without_fatal (log_file : list read) :
  without_fatal loads log_file = true →
  parse_session_log loads log_file =
    (Events (mjoin (record_of loads <$> log_file)),
     mjoin (warning_of loads <$> log_file)).
Proof.
  unfold without_fatal.
  induction log_file as [|step log_file IH]; [done|].
  cbn [forallb]. intros [Hstep Hrest]%andb_true_iff.
  rewrite parse_session_log_cons, (IH Hrest).
  unfold is_fatal in Hstep. by destruct (kind_of loads step).
Qed.

(** Taking steps out of a log. *)
Lemma filter_without_fatal (keep : read → bool) (log_file : list read) :
  without_fatal loads log_file = true →
  without_fatal loads (List.filter keep log_file) = true.
Proof.
  unfold without_fatal.
  induction log_file as [|step log_file IH]; [done|].
  cbn [forallb List.filter]. intros [Hstep Hrest]%andb_true_iff.
  destruct (keep step); cbn [forallb]; rewrite ?Hstep; auto.
Qed.

Lemma records_filtered (keep : line_kind → bool) (log_file : list read) :
  keep Decodable = true →
  mjoin (record_of loads <$>
           List.filter (λ step, keep (kind_of loads step)) log_file) =
    mjoin (record_of loads <$> log_file).
Proof.
  intros Hkeep. induction log_file as [|step log_file IH]; [done|].
  cbn [List.filter].
  destruct (keep (kind_of loads step)) eqn:Hstep;
    rewrite !join_fmap_cons, ?IH; [done|].
  assert (record_of loads step = []) as ->; [|done].
  unfold record_of, kind_of in *. destruct step as [line|e]; [|done].
  destruct (blank_line line); [done|].
  destruct (loads (Py.strip line)); [congruence|done|done].
Qed.

Lemma warnings_filtered (keep : line_kind → bool) (log_file : list read) :
  mjoin (warning_of loads <$>
           List.filter (λ step, keep (kind_of loads step)) log_file) =
    if keep Undecodable then mjoin (warning_of loads <$> log_file) else [].
Proof.
  induction log_file as [|step log_file IH].
  { by destruct (keep Undecodable). }
  cbn [List.filter].
  destruct (keep (kind_of loads step)) eqn:Hstep;
    rewrite !join_fmap_cons, ?IH;
    unfold warning_of, kind_of in *; destruct step as [line|e];
    try destruct (blank_line line);
    try destruct (loads (Py.strip line));
    destruct (keep Undecodable); simpl; congruence.
Qed.

Lemma records_count (log_file : list read) :
  length (mjoin (record_of loads <$> log_file)) =
    length (List.filter (is_decodable loads) log_file).
Proof.
  induction log_file as [|step log_file IH]; [done|].
  cbn [List.filter]. rewrite join_fmap_cons, length_app, IH.
  unfold is_decodable, record_of, kind_of. destruct step as [line|e]; [|done].
  destruct (blank_line line); [done|].
  by destruct (loads (Py.strip line)).
Qed.

Lemma warnings_count (log_file : list read) :
  length (mjoin (warning_of loads <$> log_file)) =
    length (List.filter (is_undecodable loads) log_file).
Proof.
  induction log_file as [|step log_file IH]; [done|].
  cbn [List.filter]. rewrite join_fmap_cons, length_app, IH.
  unfold is_undecodable, warning_of, kind_of.
  destruct step as [line|e]; [|done].
  destruct (blank_line line); [done|].
  by destruct (loads (Py.strip line)).
Qed.

End ParserFacts.

(** C7.  One bad line does abort the parser.  A step of the log that is
    fatal (the file does not give the line as text, or the decoder raises
    on it something else than [JSONDecodeError]) ends the run with its
    exception, wherever it stands: no record is returned, neither of the
    lines before it nor of the lines behind.  When no step before it is
    fatal, the exception that leaves the parser is the one of that step,
    and what was printed is what the lines before it have printed. *)
Theorem one_bad_line_aborts (loads : string → decoded)
    (before behind : list read) (step : read) :
  is_fatal loads step = true →
  (∃ e warnings,
     parse_session_log loads (before ++ step :: behind) = (Aborted e, warnings)) ∧
  (without_fatal loads before = true →
     ∃ e events warnings,
       parse_session_log loads before = (Events events, warnings) ∧
       parse_session_log loads (before ++ step :: behind)
         = (Aborted e, warnings) ∧
       match step with
       | Unreadable e' => e' = e
       | Line line => loads (Py.strip line) = Uncaught e
       end).
Proof.
  intros Hstep. destruct (parse_fatal_step loads step Hstep) as (e & He & Hfrom).
  assert (parse_session_log loads (step :: behind) = (Aborted e, [])) as Hrest.
  { change (step :: behind) with ([step] ++ behind).
    by rewrite parse_session_log_app, He. }
  rewrite parse_session_log_app, Hrest. split.
  - destruct (parse_session_log loads before) as [[events|e'] warnings];
      unfold continued; simpl; eauto.
  - intros Hbefore. rewrite (parse_without_fatal loads before Hbefore).
    eexists e, _, _. split_and!; [done| |done].
    unfold continued. simpl. by rewrite app_nil_r.
Qed.

Lemma one_bad_line_aborts_witness :
  let loads line :=
    if String.eqb line "null" then Value JNull
    else if String.eqb line "[[[[" then Uncaught RecursionError
    else JSONDecodeError "Expecting value" in
  let nl := String "010"%char "" in
  parse_session_log loads
    [Line ("null" +:+ nl); Line ("{oops" +:+ nl); Line ("[[[[" +:+ nl);
     Line ("null" +:+ nl)]
  = (Aborted RecursionError,
     ["Warning: Failed to parse line: Expecting value"]).
Proof.
  intros loads nl.
  destruct (one_bad_line_aborts loads
              [Line ("null" +:+ nl); Line ("{oops" +:+ nl)]
              [Line ("null" +:+ nl)] (Line ("[[[[" +:+ nl)) eq_refl)
    as [_ Hrun].
  destruct (Hrun eq_refl) as (e & events & warnings & Hbefore & Hall & He).
  vm_compute in Hbefore, He. simplify_eq. exact Hall.
Defined.

(** ** The document *)

Lemma cut_unfold (mark s : string) :
  cut mark s =
    if String.prefix mark s
    then Some ("", Py.slice_from (String.length mark) s)
    else match s with
         | "" => None
         | String c s' =>
             match cut mark s' with
             | Some (before, rest) => Some (String c before, rest)
             | None => None
             end
         end.
Proof. by destruct s. Qed.

(** A mark that begins nowhere inside [s] is found right behind [s]. *)
Lemma cut_clear (mark s rest : string) :
  clear_of mark s = true →
  cut mark (s +:+ mark +:+ rest) = Some (s, rest).
Proof.
  induction s as [|c s IH]; intros Hclear.
  - change ("" +:+ mark +:+ rest) with (mark +:+ rest).
    by rewrite cut_unfold, prefix_append, slice_from_append.
  - change (clear_of mark (String c s)) with
      (negb (String.prefix mark (String c s +:+ mark)) && clear_of mark s)
      in Hclear.
    apply andb_true_iff in Hclear as [Hhere Hlater].
    apply negb_true_iff in Hhere.
    rewrite cut_unfold, <- append_assoc, prefix_append_long, Hhere.
    + rewrite append_assoc, append_cons, (IH Hlater). done.
    + rewrite length_append. lia.
Qed.

Lemma cut_here (mark rest : string) :
  cut mark (mark +:+ rest) = Some ("", rest).
Proof. by apply (cut_clear mark ""). Qed.

Lemma strip_suffix_append (foot s : string) :
  strip_suffix foot (s +:+ foot) = Some s.
Proof.
  unfold strip_suffix. rewrite length_append.
  replace (String.length s + String.length foot - String.length foot)
    with (String.length s) by lia.
  by rewrite slice_from_append, String.eqb_refl, slice_to_append.
Qed.

(** C8, as amended.  When the fixed text that follows the timestamp, the
    status line and the decision list in the template begins nowhere inside
    the value it follows, cutting the rendered document at its fixed texts
    gives back the status line, the decision list and the narrative; the
    narrative may be any text. *)
Theorem sections_recovered (timestamp current_state decisions narrative : string) :
  clear_of template_status timestamp = true →
  clear_of template_decisions current_state = true →
  clear_of template_narrative decisions = true →
  split_sections (markdown_template timestamp current_state decisions narrative)
    = Some (current_state, decisions, narrative).
Proof.
  intros Htime Hstate Hdecisions. unfold split_sections, markdown_template.
  rewrite cut_here. simpl.
  rewrite (cut_clear template_status timestamp) by done. simpl.
  rewrite (cut_clear template_decisions current_state) by done. simpl.
  rewrite (cut_clear template_narrative decisions) by done. simpl.
  by rewrite strip_suffix_append.
Qed.

Lemma sections_recovered_witness :
  split_sections
    (markdown_template "2025-01-31-0930"
       "**State:** Session with 2 actions taken | **Errors:** None | **Messages:** 1 exchanges"
       (Py.join_lines ["- chose to use X"; "- decided on Y"])
       (Py.join_lines ["**User:** hi"; "**Assistant:** chose to use X"; ""]))
    = Some
        ("**State:** Session with 2 actions taken | **Errors:** None | **Messages:** 1 exchanges",
         Py.join_lines ["- chose to use X"; "- decided on Y"],
         Py.join_lines ["**User:** hi"; "**Assistant:** chose to use X"; ""]).
Proof.
  apply sections_recovered; vm_compute; reflexivity.
Defined.

(** C8, as stated, fails.  The two aggregates [quoting_user] and
    [quoting_assistant] are rendered to the same document under the same
    timestamp, yet their decision lists differ (and their narratives): no
    reading of the document can give back the sections of both, and
    [split_sections] gives back those of the first. *)
Lemma rendering_loses_sections :
  let timestamp := "2025-01-31-0930" in
  ∃ doc decisions decisions' narrative narrative',
    generate_markdown_summary (λ _, "") quoting_user timestamp
      = Some (Returns doc) ∧
    generate_markdown_summary (λ _, "") quoting_assistant timestamp
      = Some (Returns doc) ∧
    generate_decisions_section quoting_user = Returns decisions ∧
    generate_decisions_section quoting_assistant = Returns decisions' ∧
    generate_narrative_section (λ _, "") quoting_user
      = Some (Returns narrative) ∧
    generate_narrative_section (λ _, "") quoting_assistant
      = Some (Returns narrative') ∧
    decisions ≠ decisions' ∧
    narrative ≠ narrative' ∧
    split_sections doc ≠
      Some (generate_current_state quoting_assistant, decisions', narrative') ∧
    ¬ ∃ reparse : string → string * string * string,
        ∀ timestamp current_state decisions narrative,
          reparse (markdown_template timestamp current_state decisions narrative)
            = (current_state, decisions, narrative).
Proof.
  intros timestamp.
  pose (state := generate_current_state quoting_user).
  pose (decisions := no_decisions).
  pose (decisions' := "- " +:+ quoted_reply).
  pose (narrative :=
    Py.join_lines
      ["**User:** using" +:+ template_narrative +:+
       Py.join_lines ["**User:** ok"; "**Assistant:** " +:+ quoted_reply]; ""]).
  pose (narrative' :=
    Py.join_lines ["**User:** ok"; "**Assistant:** " +:+ quoted_reply; ""]).
  assert (markdown_template timestamp state decisions narrative =
          markdown_template timestamp state decisions' narrative') as Hsame
    by (vm_compute; reflexivity).
  assert (decisions ≠ decisions') as Hdiff by (vm_compute; discriminate).
  exists (markdown_template timestamp state decisions narrative),
    decisions, decisions', narrative, narrative'.
  split_and!; try (vm_compute; reflexivity); try (vm_compute; discriminate).
  intros [reparse Hreparse].
  pose proof (Hreparse timestamp state decisions narrative) as Hone.
  rewrite Hsame, Hreparse in Hone. by injection Hone.
Qed.

(** ** Scenarios of the specification, run on the embedding *)

Example scenario_two_records :
  let events :=
    [JDict {[ "message" :=
       JDict {[ "role" := JStr "user"; "content" := JStr "hi" ]} ]};
     JDict {[ "message" :=
       JDict {[ "role" := JStr "assistant";
                "content" :=
                  JList [JDict {[ "type" := JStr "text";
                                  "text" := JStr "chose to use X" ]}] ]} ]}] in
  ∃ d, extract_summary_data events = Returns d ∧
    user_messages d = [JStr "hi"] ∧
    assistant_messages d = [JStr "chose to use X"] ∧
    decision_list d = Returns ["- chose to use X"] ∧
    generate_narrative_section (λ _, "") d =
      Some (Returns (Py.join_lines
        ["**User:** hi"; "**Assistant:** chose to use X"; ""])).
Proof. eexists. split_and!; vm_compute; reflexivity. Qed.

Example scenario_empty_log :
  ∃ d, extract_summary_data [] = Returns d ∧
    generate_current_state d =
      "**State:** Session with 0 actions taken | **Errors:** None | **Messages:** 0 exchanges" ∧
    generate_decisions_section d = Returns no_decisions ∧
    generate_narrative_section (λ _, "") d = Some (Returns "").
Proof. eexists. split_and!; vm_compute; reflexivity. Qed.

(** A toy decoder, enough to run the parser: two literals decode, anything
    else does not. *)
Example scenario_bad_lines :
  let loads line :=
    if String.eqb line "null" then Value JNull
    else if String.eqb line "true" then Value (JBool true)
    else JSONDecodeError "Expecting value" in
  let nl := String "010"%char "" in
  parse_session_log loads
    [Line ("null" +:+ nl); Line ("   " +:+ nl); Line ("{oops" +:+ nl);
     Line nl; Line ("  true  " +:+ nl); Line "]"]
  = (Events [JNull; JBool true],
     ["Warning: Failed to parse line: Expecting value";
      "Warning: Failed to parse line: Expecting value"]).
Proof. vm_compute. reflexivity. Qed.

(** A file whose third line is not text in the encoding it is read in: the
    two records read before it are lost with the exception. *)
Example scenario_unreadable_line :
  let loads line :=
    if String.eqb line "null" then Value JNull
    else JSONDecodeError "Expecting value" in
  let nl := String "010"%char "" in
  parse_session_log loads
    [Line ("null" +:+ nl); Line ("null" +:+ nl);
     Unreadable UnicodeDecodeError; Line ("null" +:+ nl)]
  = (Aborted UnicodeDecodeError, []).
Proof. vm_compute. reflexivity. Qed.

(** A text block whose [text] is not text puts a value that is not text in a
    message bucket; the decision generator then stops at [msg.lower()].  The
    aggregates of the claims above hold texts. *)
Example number_in_text_block :
  let events :=
    [JDict {[ "role" := JStr "assistant";
              "content" :=
                JList [JDict {[ "type" := JStr "text"; "text" := JInt 5 ]}] ]}] in
  ∃ d, extract_summary_data events = Returns d ∧
    assistant_messages d = [JInt 5] ∧
    generate_decisions_section d = Raises AttributeError.
Proof. eexists. split_and!; vm_compute; reflexivity. Qed.

(** * Further properties of the script *)

(** ** The storage key of a project *)

Lemma replace_char_app (old new : ascii) (s t : string) :
  Py.replace_char old new (s +:+ t) =
    Py.replace_char old new s +:+ Py.replace_char old new t.
Proof.
  induction s as [|c s IH]; [done|].
  rewrite append_cons. simpl. by rewrite append_cons, IH.
Qed.

Lemma length_replace_char (old new : ascii) (s : string) :
  String.length (Py.replace_char old new s) = String.length s.
Proof. induction s as [|c s IH]; [done|]. simpl. by rewrite IH. Qed.

Lemma get_replace_char (old new : ascii) (s : string) (i : nat) :
  String.get i (Py.replace_char old new s) =
    (λ c, if Ascii.eqb c old then new else c) <$> String.get i s.
Proof.
  revert i. induction s as [|c s IH]; intros i; [done|].
  destruct i as [|i]; simpl; [done|apply IH].
Qed.

(** A character that the replacement removes occurs nowhere in its result. *)
Lemma replace_char_clean (old new : ascii) (s : string) :
  old ≠ new →
  Py.contains (String old "") (Py.replace_char old new s) = false.
Proof.
  intros Hne. induction s as [|c s IH]; [done|].
  simpl Py.replace_char. rewrite contains_cons, IH, orb_false_r. simpl.
  destruct (Ascii.eqb_spec c old) as [->|Hc];
    destruct (ascii_dec _ _) as [Heq|]; done.
Qed.

Lemma replace_char_id (old new : ascii) (s : string) :
  Py.contains (String old "") s = false → Py.replace_char old new s = s.
Proof.
  induction s as [|c s IH]; [done|].
  rewrite contains_cons. intros [Hhere Hlater]%orb_false_iff. simpl.
  rewrite (IH Hlater). simpl in Hhere.
  destruct (ascii_dec old c) as [->|Hc]; [by destruct s|].
  by destruct (Ascii.eqb_spec c old) as [->|_].
Qed.

(** X1.  The storage key has the length of the project directory, holds no
    path separator, and agrees with the directory at every position but
    those of the separators, where it has a hyphen; a key is its own key,
    and a directory is its own key exactly when it has no separator. *)
Theorem project_name_shape (project_dir : string) :
  let claude_name := get_claude_project_name project_dir in
  String.length claude_name = String.length project_dir ∧
  Py.contains "/" claude_name = false ∧
  (∀ i, String.get i claude_name =
          (λ c, if Ascii.eqb c "/" then "-"%char else c)
            <$> String.get i project_dir) ∧
  get_claude_project_name claude_name = claude_name ∧
  (claude_name = project_dir ↔ Py.contains "/" project_dir = false).
Proof.
  unfold get_claude_project_name. split_and!.
  - apply length_replace_char.
  - by apply replace_char_clean.
  - apply get_replace_char.
  - apply replace_char_id. by apply replace_char_clean.
  - split.
    + intros <-. by apply replace_char_clean.
    + apply replace_char_id.
Qed.

(** X2.  The key of a concatenation is the concatenation of the keys, and a
    separator and a hyphen at the same place give the same key: two
    different directories that differ only so share their storage key. *)
Theorem project_name_collision (before behind : string) :
  get_claude_project_name (before +:+ behind) =
    get_claude_project_name before +:+ get_claude_project_name behind ∧
  get_claude_project_name (before +:+ "/" +:+ behind) =
    get_claude_project_name (before +:+ "-" +:+ behind) ∧
  before +:+ "/" +:+ behind ≠ before +:+ "-" +:+ behind.
Proof.
  unfold get_claude_project_name. split_and!.
  - apply replace_char_app.
  - by rewrite !replace_char_app.
  - intros Heq. apply (inj (String.app before)) in Heq. discriminate.
Qed.

Example project_name_docstring :
  get_claude_project_name "/Users/jonathanwells/code/jmw-superclaude"
    = "-Users-jonathanwells-code-jmw-superclaude".
Proof. reflexivity. Qed.

(** ** The locator *)

Lemma ends_with_slash_app (p : string) (c : ascii) (q : string) :
  Py.ends_with_slash (p +:+ String c q) = Py.ends_with_slash (String c q).
Proof.
  induction p as [|c' p IH]; [done|].
  rewrite append_cons. simpl Py.ends_with_slash at 1.
  destruct (p +:+ String c q) eqn:Heq; [by destruct p|]. by rewrite <- IH.
Qed.

(** The directory of all projects is the home directory followed by
    [.claude/projects], with a separator in front unless the home directory
    is empty or a root. *)
Lemma claude_dir_shape (home : string) :
  ∃ base, Py.joinpath (Py.joinpath home ".claude") "projects"
            = base +:+ ".claude/projects".
Proof.
  unfold Py.joinpath. simpl.
  destruct (String.eqb home ".") eqn:Hdot.
  { exists "". done. }
  destruct (Py.ends_with_slash home) eqn:Hroot.
  - exists home. destruct (String.eqb_spec (home +:+ ".claude") ".") as [Heq|_].
    + apply (f_equal String.length) in Heq. rewrite length_append in Heq.
      simpl in Heq. lia.
    + rewrite ends_with_slash_app. simpl. by rewrite append_assoc.
  - exists (home +:+ "/"). change ("/" +:+ ".claude") with "/.claude".
    destruct (String.eqb_spec (home +:+ "/.claude") ".") as [Heq|_].
    + apply (f_equal String.length) in Heq. rewrite !length_append in Heq.
      simpl in Heq. lia.
    + rewrite (ends_with_slash_app home "/" ".claude"). simpl.
      by rewrite !append_assoc.
Qed.

Section LocatorFacts.

Context {T : Type}.
Variable gt : T → T → bool.
Variable path_exists : string → option bool.
Variable glob_jsonl : string → option (list (string * option T)).

(** The maximum is never [None]: that answer is given before the search. *)
Lemma max_by_mtime_found_or_failed (latest : string * T)
    (rest : list (string * option T)) :
  max_by_mtime gt latest rest ≠ NotFound.
Proof.
  revert latest. induction rest as [|[p [t|]] rest IH]; intros latest; simpl;
    [done|apply IH|done].
Qed.

(** The search fails on an item that does not answer [stat], and on nothing
    else. *)
Lemma max_by_mtime_escaped (latest : string * T)
    (rest : list (string * option T)) (e : escape) :
  max_by_mtime gt latest rest = Escaped e ↔
    e = OSError ∧ ∃ p, (p, None) ∈ rest.
Proof.
  revert latest. induction rest as [|[p [t|]] rest IH]; intros latest; simpl.
  - split; [done|]. intros [_ [p Hp]]. by apply elem_of_nil in Hp.
  - rewrite IH. split; intros [He [q Hq]]; (split; [done|]); exists q.
    + by apply list_elem_of_further.
    + by apply elem_of_cons in Hq as [[=]|Hq].
  - split.
    + intros [= <-]. split; [done|]. exists p. apply list_elem_of_here.
    + by intros [-> _].
Qed.

(** With the home directory told, the directory there and a first match
    that answers [stat], the function is the search for the maximum. *)
Lemma find_latest_searches (home project_dir : string) (p : string) (t : T)
    (rest : list (string * option T)) :
  path_exists (project_log_dir home project_dir) = Some true →
  glob_jsonl (project_log_dir home project_dir) = Some ((p, Some t) :: rest) →
  find_latest_session_log gt (Some home) path_exists glob_jsonl project_dir
    = (max_by_mtime gt (p, t) rest, []).
Proof.
  intros Hexists Hglob. unfold find_latest_session_log.
  by rewrite Hexists, Hglob.
Qed.

Section Ordered.

(** [>] on the modification times at hand: a strict order in which being
    incomparable is transitive (as on numbers; no time is a NaN). *)
Hypothesis gt_irrefl : ∀ a, gt a a = false.
Hypothesis gt_trans : ∀ a b c, gt a b = true → gt b c = true → gt a c = true.
Hypothesis gt_tie : ∀ a b c, gt a b = false → gt b c = false → gt a c = false.

(** The search from a held item that beats all items seen before it and is
    beaten by none seen so far ends on such an item of the whole listing. *)
Lemma max_by_mtime_newest (seen rest : list (string * T)) (k : nat)
    (latest : string * T) :
  seen !! k = Some latest →
  (∀ j q u, seen !! j = Some (q, u) →
     (j < k → gt latest.2 u = true) ∧ gt u latest.2 = false) →
  ∃ i p t, (seen ++ rest) !! i = Some (p, t) ∧
    max_by_mtime gt latest (prod_map id Some <$> rest) = Found p ∧
    ∀ j q u, (seen ++ rest) !! j = Some (q, u) →
      (j < i → gt t u = true) ∧ gt u t = false.
Proof.
  revert seen k latest.
  induction rest as [|[p' t'] rest IH]; intros seen k [p t] Hk Hbest.
  { exists k, p, t. rewrite app_nil_r. done. }
  simpl in *.
  replace (seen ++ (p', t') :: rest) with ((seen ++ [(p', t')]) ++ rest)
    by (by rewrite <- app_assoc).
  pose proof (lookup_lt_Some _ _ _ Hk) as Hlt.
  destruct (gt t' t) eqn:Hnewer.
  - apply (IH _ (length seen)).
    + by rewrite lookup_app_r, Nat.sub_diag by lia.
    + intros j q u Hj. simpl.
      destruct (decide (j < length seen)) as [Hin|Hout].
      * rewrite lookup_app_l in Hj by done.
        destruct (Hbest j q u Hj) as [_ Hu]. split.
        -- intros _. destruct (gt t' u) eqn:Hcmp; [done|].
           by rewrite (gt_tie t' u t Hcmp Hu) in Hnewer.
        -- destruct (gt u t') eqn:Hcmp; [|done].
           by rewrite (gt_trans u t' t Hcmp Hnewer) in Hu.
      * pose proof (lookup_lt_Some _ _ _ Hj) as Hj'.
        rewrite length_app in Hj'. simpl in Hj'.
        assert (j = length seen) as -> by lia.
        rewrite lookup_app_r, Nat.sub_diag in Hj by lia.
        simplify_eq/=. split; [lia|apply gt_irrefl].
  - apply (IH _ k).
    + by rewrite lookup_app_l by done.
    + intros j q u Hj. simpl.
      destruct (decide (j < length seen)) as [Hin|Hout].
      * rewrite lookup_app_l in Hj by done. by apply (Hbest j q u).
      * pose proof (lookup_lt_Some _ _ _ Hj) as Hj'.
        rewrite length_app in Hj'. simpl in Hj'.
        assert (j = length seen) as -> by lia.
        rewrite lookup_app_r, Nat.sub_diag in Hj by lia.
        simplify_eq/=. split; [lia|done].
Qed.

End Ordered.

End LocatorFacts.

(** X3.  When the home directory is told, the project's log directory
    exists and every matching file answers [stat], the locator returns a
    file of the listing, prints nothing, and the file is the first of the
    newest: every match listed before it is strictly older, and no match
    is strictly newer. *)
Theorem latest_log_is_first_newest {T : Type} (gt : T → T → bool)
    (home : string) (path_exists : string → option bool)
    (glob_jsonl : string → option (list (string * option T)))
    (project_dir : string) (first : string * T) (others : list (string * T)) :
  (∀ a, gt a a = false) →
  (∀ a b c, gt a b = true → gt b c = true → gt a c = true) →
  (∀ a b c, gt a b = false → gt b c = false → gt a c = false) →
  path_exists (project_log_dir home project_dir) = Some true →
  glob_jsonl (project_log_dir home project_dir)
    = Some (prod_map id Some <$> first :: others) →
  ∃ i p t, (first :: others) !! i = Some (p, t) ∧
    find_latest_session_log gt (Some home) path_exists glob_jsonl project_dir
      = (Found p, []) ∧
    ∀ j q u, (first :: others) !! j = Some (q, u) →
      (j < i → gt t u = true) ∧ gt u t = false.
Proof.
  intros Hirr Htrans Htie Hexists Hglob. destruct first as [p0 t0].
  rewrite (find_latest_searches gt path_exists glob_jsonl home project_dir
             p0 t0 _ Hexists Hglob).
  destruct (max_by_mtime_newest gt Hirr Htrans Htie [(p0, t0)] others 0 (p0, t0))
    as (i & p & t & Hi & Hmax & Hbest); [done| |].
  - intros [|j] q u Hj; simplify_eq/=. split; [lia|apply Hirr].
  - exists i, p, t. split_and!; [done|f_equal; exact Hmax|done].
Qed.

Lemma latest_log_is_first_newest_witness :
  let listing := [("a.jsonl", 5%Z); ("b.jsonl", 9%Z); ("c.jsonl", 9%Z);
                  ("d.jsonl", 2%Z)] in
  find_latest_session_log Z.gtb (Some "/home/u") (λ _, Some true)
      (λ _, Some (prod_map id Some <$> listing)) "/work/app"
    = (Found "b.jsonl", []).
Proof.
  intros listing.
  destruct (latest_log_is_first_newest Z.gtb "/home/u" (λ _, Some true)
              (λ _, Some (prod_map id Some <$> listing)) "/work/app"
              ("a.jsonl", 5%Z)
              [("b.jsonl", 9%Z); ("c.jsonl", 9%Z); ("d.jsonl", 2%Z)])
    as (i & p & t & Hi & Hfound & Hbest).
  - intros a. rewrite Z.gtb_ltb. apply Z.ltb_irrefl.
  - intros a b c. rewrite !Z.gtb_ltb, !Z.ltb_lt. lia.
  - intros a b c. rewrite !Z.gtb_ltb, !Z.ltb_ge. lia.
  - reflexivity.
  - reflexivity.
  - rewrite Hfound. do 2 f_equal.
    destruct (Hbest 1 "b.jsonl" 9%Z eq_refl) as [Hearlier Hlater].
    destruct i as [|[|[|[|i]]]]; simplify_eq/=; done.
Defined.

(** X4.  The locator answers [None] exactly when the home directory is
    told and the project's log directory there is reported missing, or is
    reported present and lists no matching file; where the home directory,
    the test of the directory or its listing raises, the locator does not
    answer.  It writes to standard error exactly when it answers [None]:
    one line, which ends with the directory it looked for. *)
Theorem locator_not_found {T : Type} (gt : T → T → bool)
    (home : option string) (path_exists : string → option bool)
    (glob_jsonl : string → option (list (string * option T)))
    (project_dir : string) :
  let result :=
    find_latest_session_log gt home path_exists glob_jsonl project_dir in
  (result.1 = NotFound ↔
     ∃ h, home = Some h ∧
       (path_exists (project_log_dir h project_dir) = Some false ∨
        (path_exists (project_log_dir h project_dir) = Some true ∧
         glob_jsonl (project_log_dir h project_dir) = Some []))) ∧
  (result.1 = NotFound ↔ result.2 ≠ []) ∧
  length result.2 ≤ 1 ∧
  ∀ line, line ∈ result.2 →
    ∃ intro h, home = Some h ∧ line = intro +:+ project_log_dir h project_dir.
Proof.
  intros result. unfold result, find_latest_session_log.
  destruct home as [h|]; simpl.
  2:{ split_and!; [|done|lia|by intros line ?%elem_of_nil].
      split; [done|by intros (h & [=] & _)]. }
  destruct (path_exists (project_log_dir h project_dir)) as [[|]|] eqn:Hexists;
    simpl.
  - destruct (glob_jsonl (project_log_dir h project_dir))
      as [[|[p [t|]] rest]|] eqn:Hglob; simpl.
    + split_and!; [|done|lia|].
      * split; [|done]. intros _. exists h. split; [done|]. by right.
      * intros line ->%list_elem_of_singleton. by eexists _, h.
    + pose proof (max_by_mtime_found_or_failed gt (p, t) rest) as Hmax.
      split_and!; [|done|lia|by intros line ?%elem_of_nil].
      split; [by intros ?%Hmax|].
      intros (h' & [= <-] & [Hno|[_ Hnone]]); congruence.
    + split_and!; [|done|lia|by intros line ?%elem_of_nil].
      split; [done|].
      intros (h' & [= <-] & [Hno|[_ Hnone]]); congruence.
    + split_and!; [|done|lia|by intros line ?%elem_of_nil].
      split; [done|].
      intros (h' & [= <-] & [Hno|[_ Hnone]]); congruence.
  - split_and!; [|done|lia|].
    + split; [|done]. intros _. exists h. split; [done|]. by left.
    + intros line ->%list_elem_of_singleton. by eexists _, h.
  - split_and!; [|done|lia|by intros line ?%elem_of_nil].
    split; [done|].
    intros (h' & [= <-] & [Hno|[Hyes _]]); congruence.
Qed.

(** X5.  The locator fails in two ways, and prints nothing when it does.
    It fails with [RuntimeError] exactly when the home directory cannot be
    told.  It fails with [OSError] exactly when the home directory is told
    and the test of the project's log directory raises, or the directory is
    reported present and its listing raises or holds an entry that does not
    answer [stat], wherever the entry stands in the listing and whatever
    the other entries are. *)
Theorem locator_escapes {T : Type} (gt : T → T → bool)
    (home : option string) (path_exists : string → option bool)
    (glob_jsonl : string → option (list (string * option T)))
    (project_dir : string) :
  let result :=
    find_latest_session_log gt home path_exists glob_jsonl project_dir in
  (result.1 = Escaped RuntimeError ↔ home = None) ∧
  (result.1 = Escaped OSError ↔
     ∃ h, home = Some h ∧
       (path_exists (project_log_dir h project_dir) = None ∨
        (path_exists (project_log_dir h project_dir) = Some true ∧
         (glob_jsonl (project_log_dir h project_dir) = None ∨
          ∃ listing p,
            glob_jsonl (project_log_dir h project_dir) = Some listing ∧
            (p, None) ∈ listing)))) ∧
  (∀ e, result.1 = Escaped e →
     (e = RuntimeError ∨ e = OSError) ∧ result.2 = []).
Proof.
  intros result. unfold result, find_latest_session_log.
  destruct home as [h|]; simpl.
  2:{ split_and!; [done| |by intros e [= <-]; auto].
      split; [done|by intros (h & [=] & _)]. }
  destruct (path_exists (project_log_dir h project_dir)) as [[|]|] eqn:Hexists;
    simpl.
  - destruct (glob_jsonl (project_log_dir h project_dir))
      as [[|[p [t|]] rest]|] eqn:Hglob; simpl.
    + split_and!; [done| |done].
      split; [done|].
      intros (h' & [= <-] & [Hno|[_ [Hnone|(l & q & Hl & Hq)]]]);
        try congruence.
      rewrite Hglob in Hl. injection Hl as <-. by apply elem_of_nil in Hq.
    + split_and!.
      * split; [|done]. by intros [[=] _]%max_by_mtime_escaped.
      * rewrite max_by_mtime_escaped. split.
        -- intros [_ [q Hq]]. exists h. split; [done|]. right.
           split; [done|]. right. eexists _, q. split; [done|].
           by apply list_elem_of_further.
        -- intros (h' & [= <-] & [Hno|[_ [Hnone|(l & q & Hl & Hq)]]]);
             try congruence.
           rewrite Hglob in Hl. injection Hl as <-. split; [done|]. exists q.
           by apply elem_of_cons in Hq as [[=]|Hq].
      * intros e [-> _]%max_by_mtime_escaped. auto.
    + split_and!; [done| |by intros e [= <-]; auto].
      split; [|done]. intros _. exists h. split; [done|]. right.
      split; [done|]. right. eexists _, p. split; [done|].
      apply list_elem_of_here.
    + split_and!; [done| |by intros e [= <-]; auto].
      split; [|done]. intros _. exists h. split; [done|]. right.
      split; [done|]. by left.
  - split_and!; [done| |done].
    split; [done|].
    intros (h' & [= <-] & [Hno|[Hyes _]]); congruence.
  - split_and!; [done| |by intros e [= <-]; auto].
    split; [|done]. intros _. exists h. split; [done|]. by left.
Qed.

(** X6.  The directory searched is the directory of all projects itself
    when the key is empty or a single dot, and otherwise its child named by
    the key; it is the same for two project directories that differ by a
    separator against a hyphen, and so is everything the locator answers,
    whether the home directory is told or not. *)
Theorem locator_reads_key_only {T : Type} (gt : T → T → bool)
    (home : string) (path_exists : string → option bool)
    (glob_jsonl : string → option (list (string * option T)))
    (project_dir before behind : string) :
  let claude_dir := Py.joinpath (Py.joinpath home ".claude") "projects" in
  let key := get_claude_project_name project_dir in
  project_log_dir home project_dir =
    (if String.eqb key "" || String.eqb key "." then claude_dir
     else claude_dir +:+ "/" +:+ key) ∧
  ∀ told : option string,
    find_latest_session_log gt told path_exists glob_jsonl
        (before +:+ "/" +:+ behind) =
      find_latest_session_log gt told path_exists glob_jsonl
        (before +:+ "-" +:+ behind).
Proof.
  intros claude_dir key. split.
  - unfold project_log_dir. fold claude_dir key. unfold Py.joinpath at 1.
    destruct (String.eqb key "" || String.eqb key "."); [done|].
    destruct (claude_dir_shape home) as [base Hbase]. fold claude_dir in Hbase.
    rewrite Hbase.
    destruct (String.eqb_spec (base +:+ ".claude/projects") ".") as [Heq|_].
    { apply (f_equal String.length) in Heq. rewrite length_append in Heq.
      simpl in Heq. lia. }
    by rewrite ends_with_slash_app.
  - intros told.
    unfold find_latest_session_log, project_log_dir, get_claude_project_name.
    by rewrite !replace_char_app.
Qed.

(** ** More on the classifier *)

Lemma data_app_empty_r (d : data) : data_app d empty_data = d.
Proof. destruct d. unfold data_app. simpl. by rewrite !app_nil_r. Qed.

Lemma data_app_empty_l (d : data) : data_app empty_data d = d.
Proof. by destruct d. Qed.

Lemma data_app_assoc (d1 d2 d3 : data) :
  data_app (data_app d1 d2) d3 = data_app d1 (data_app d2 d3).
Proof. unfold data_app. simpl. by rewrite !app_assoc. Qed.

(** Every update of the aggregate appends, and so commutes with what stands
    in front. *)
Lemma user_item_app (d x : data) (item : json) :
  user_item (data_app d x) item = data_app d (user_item x item).
Proof.
  destruct item as [|b|n|f|s|l|i]; simpl; try done.
  - unfold data_app, append_user. simpl. by rewrite app_assoc.
  - destruct (Py.eq_str (i !! "type") "text"); [|done].
    unfold data_app, append_user. simpl. by rewrite app_assoc.
Qed.

Lemma assistant_item_app (d x : data) (item : json) :
  assistant_item (data_app d x) item = data_app d (assistant_item x item).
Proof.
  destruct item as [|b|n|f|s|l|i]; simpl; try done.
  destruct (Py.eq_str (i !! "type") "text").
  { unfold data_app, append_assistant. simpl. by rewrite app_assoc. }
  destruct (Py.eq_str (i !! "type") "tool_use"); [|done].
  unfold data_app, append_tool_use. simpl. by rewrite app_assoc.
Qed.

Lemma foldl_item_app (step : data → json → data) (d x : data)
    (items : list json) :
  (∀ d x item, step (data_app d x) item = data_app d (step x item)) →
  foldl step (data_app d x) items = data_app d (foldl step x items).
Proof.
  intros Hstep. revert x. induction items as [|item items IH]; intros x;
    simpl; [done|]. by rewrite Hstep, IH.
Qed.

Lemma by_role_app (role : option json) (content : json) (d x : data) :
  by_role role content (data_app d x) = data_app d (by_role role content x).
Proof.
  unfold by_role. destruct (Py.eq_str role "user").
  { destruct content; try done.
    - unfold data_app, append_user. simpl. by rewrite app_assoc.
    - apply foldl_item_app, user_item_app. }
  destruct (Py.eq_str role "assistant"); [|done].
  destruct content; try done.
  - unfold data_app, append_assistant. simpl. by rewrite app_assoc.
  - apply foldl_item_app, assistant_item_app.
Qed.

Lemma by_type_app (ev : gmap string json) (d x : data) :
  by_type ev (data_app d x) = data_app d (by_type ev x).
Proof.
  unfold by_type. destruct (Py.eq_str (ev !! "type") "tool_result"); [|done].
  destruct (Py.truthy (Py.get ev "is_error"));
    unfold data_app, append_tool_result, append_error; simpl;
    by rewrite !app_assoc.
Qed.

Lemma process_event_app (d x : data) (event : json) :
  process_event (data_app d x) event = data_app d <$> process_event x event.
Proof.
  destruct event as [|b|n|f|s|l|ev]; try done. simpl.
  destruct (Py.dict_of (message_of ev)) as [msg|e]; [|done]. simpl.
  by rewrite by_role_app, by_type_app.
Qed.

Lemma for_in_process_app (events : list json) (d x : data) :
  for_in process_event events (data_app d x) =
    data_app d <$> for_in process_event events x.
Proof.
  revert x. induction events as [|event events IH]; intros x; simpl; [done|].
  rewrite process_event_app.
  destruct (process_event x event) as [x'|e]; simpl; [apply IH|done].
Qed.

Lemma extract_app (events more : list json) :
  extract_summary_data (events ++ more) =
    d ← extract_summary_data events;
    data_app d <$> extract_summary_data more.
Proof.
  unfold extract_summary_data. rewrite for_in_app.
  destruct (for_in process_event events empty_data) as [d|e]; simpl; [|done].
  rewrite <- (data_app_empty_r d) at 1. apply for_in_process_app.
Qed.

(** X7.  The classifier only appends, in log order: a run over two logs end
    to end returns exactly when the runs over each do, and its buckets are
    theirs end to end; so the buckets of a prefix of the log are prefixes of
    the buckets of the log. *)
Theorem extract_concatenation (events more : list json) (d : data) :
  extract_summary_data (events ++ more) = Returns d ↔
  ∃ d1 d2, extract_summary_data events = Returns d1 ∧
           extract_summary_data more = Returns d2 ∧
           d = data_app d1 d2.
Proof.
  rewrite extract_app. split.
  - destruct (extract_summary_data events) as [d1|e]; simpl; [|done].
    destruct (extract_summary_data more) as [d2|e]; simpl; [|done].
    intros [= <-]. eauto.
  - intros (d1 & d2 & -> & -> & ->). done.
Qed.

(** X8.  Records that are not mappings (numbers, texts, lists, [null]) are
    passed over: taking them out of the log changes nothing. *)
Theorem non_mappings_skipped (events : list json) :
  extract_summary_data events =
    extract_summary_data (List.filter is_mapping events).
Proof.
  unfold extract_summary_data. generalize empty_data.
  induction events as [|event events IH]; intros d; [done|].
  destruct event as [|b|n|f|s|l|ev]; simpl; try apply IH.
  destruct (Py.dict_of (message_of ev)) as [msg|e]; simpl; [apply IH|done].
Qed.

Lemma by_type_counts (ev : gmap string json) (d : data) :
  length (tool_results (by_type ev d)) =
    length (tool_results d) + (if is_tool_result (JDict ev) then 1 else 0) ∧
  length (errors (by_type ev d)) =
    length (errors d) + (if is_error_result (JDict ev) then 1 else 0).
Proof.
  unfold by_type. simpl.
  destruct (Py.eq_str (ev !! "type") "tool_result"); simpl; [|lia].
  destruct (Py.truthy (Py.get ev "is_error")); simpl;
    rewrite ?length_app; simpl; lia.
Qed.

Lemma for_in_counts (events : list json) (d d' : data) :
  for_in process_event events d = Returns d' →
  length (tool_results d') =
    length (tool_results d) + length (List.filter is_tool_result events) ∧
  length (errors d') =
    length (errors d) + length (List.filter is_error_result events).
Proof.
  revert d. induction events as [|event events IH]; intros d Hrun.
  { simplify_eq/=. lia. }
  simpl in Hrun.
  destruct (process_event d event) as [d1|e] eqn:Hstep; simplify_eq/=.
  destruct (IH d1 Hrun) as [-> ->].
  destruct event as [|b|n|f|s|l|ev]; simplify_eq/=; try lia.
  destruct (Py.dict_of (message_of ev)) as [msg|e]; simplify_eq/=.
  destruct (by_role_keeps (msg !! "role") (Py.get_or msg "content" (JStr "")) d)
    as [Hres Herr].
  destruct (by_type_counts ev
              (by_role (msg !! "role") (Py.get_or msg "content" (JStr "")) d))
    as [-> ->].
  rewrite Hres, Herr. cbn [is_tool_result is_error_result].
  destruct (Py.eq_str (ev !! "type") "tool_result"); simpl; [|lia].
  destruct (Py.truthy (Py.get ev "is_error")); simpl; lia.
Qed.

(** X9.  At the end of a run the tool-result bucket has one descriptor for
    each record whose top-level [type] is [tool_result], and the error bucket
    one for each of those whose [is_error] is truthy; what the nested message
    of a record holds plays no part. *)
Theorem tool_result_counts (events : list json) (d : data) :
  extract_summary_data events = Returns d →
  length (tool_results d) = length (List.filter is_tool_result events) ∧
  length (errors d) = length (List.filter is_error_result events).
Proof. intros Hrun. by destruct (for_in_counts events empty_data d Hrun). Qed.

Lemma tool_result_counts_witness :
  let events :=
    [JDict {[ "type" := JStr "tool_result"; "is_error" := JStr "false" ]};
     JDict {[ "type" := JStr "tool_result"; "is_error" := JInt 0 ]};
     JDict {[ "message" := JDict {[ "type" := JStr "tool_result" ]} ]};
     JStr "tool_result"] in
  ∃ d, extract_summary_data events = Returns d ∧
    length (tool_results d) = 2 ∧ length (errors d) = 1.
Proof.
  intros events.
  assert (∃ d, extract_summary_data events = Returns d) as [d Hrun]
    by (eexists; vm_compute; reflexivity).
  exists d. split; [done|]. exact (tool_result_counts events d Hrun).
Defined.

(** X10.  The nested and the flat format are read alike: a record that
    wraps a message under [message] and a record that is that message
    itself give the same run, when neither is of type [tool_result] and the
    message has no [message] field of its own.  What else the wrapper holds
    is not read. *)
Theorem nested_and_flat_agree (before behind : list json)
    (ev msg : gmap string json) :
  ev !! "message" = Some (JDict msg) →
  msg !! "message" = None →
  Py.eq_str (ev !! "type") "tool_result" = false →
  Py.eq_str (msg !! "type") "tool_result" = false →
  extract_summary_data (before ++ JDict ev :: behind) =
    extract_summary_data (before ++ JDict msg :: behind).
Proof.
  intros Hnested Hflat Hev Hmsg. unfold extract_summary_data.
  rewrite !for_in_app. destruct (for_in process_event before empty_data)
    as [d|e]; simpl; [|done].
  unfold message_of, Py.get_or, by_type. by rewrite Hnested, Hflat, Hev, Hmsg.
Qed.

Lemma nested_and_flat_agree_witness :
  let msg : gmap string json :=
    {[ "role" := JStr "assistant";
       "content" := JList [JDict {[ "type" := JStr "tool_use";
                                    "name" := JStr "Read" ]}] ]} in
  let ev : gmap string json :=
    {[ "message" := JDict msg; "type" := JStr "assistant";
       "uuid" := JStr "0001" ]} in
  extract_summary_data ([JNull] ++ JDict ev :: [JStr "x"]) =
    extract_summary_data ([JNull] ++ JDict msg :: [JStr "x"]).
Proof.
  intros msg ev.
  apply (nested_and_flat_agree [JNull] [JStr "x"] ev msg);
    vm_compute; reflexivity.
Defined.

(** X11.  Only a record whose effective role is [assistant] adds to the
    assistant bucket or to the tool-invocation bucket, and only one whose
    role is [user] adds to the user bucket: a [tool_use] block inside a user
    message is not collected, and a record of another role, or of none, adds
    to none of the three. *)
Theorem roles_gate_buckets (d d' : data) (ev msg : gmap string json) :
  process_event d (JDict ev) = Returns d' →
  message_of ev = JDict msg →
  (Py.eq_str (msg !! "role") "user" = false →
     user_messages d' = user_messages d) ∧
  (Py.eq_str (msg !! "role") "assistant" = false →
     assistant_messages d' = assistant_messages d ∧
     tool_uses d' = tool_uses d).
Proof.
  intros Hstep Hmsg. rewrite (process_event_mapping d ev msg Hmsg) in Hstep.
  injection Hstep as <-.
  set (content := Py.get_or msg "content" (JStr "")).
  assert (∀ x, user_messages (by_type ev x) = user_messages x ∧
               assistant_messages (by_type ev x) = assistant_messages x ∧
               tool_uses (by_type ev x) = tool_uses x) as Htype.
  { intros x. unfold by_type.
    destruct (Py.eq_str (ev !! "type") "tool_result"); [|done].
    by destruct (Py.truthy (Py.get ev "is_error")). }
  destruct (Htype (by_role (msg !! "role") content d)) as (-> & -> & ->).
  unfold by_role. split.
  - intros ->. destruct (Py.eq_str (msg !! "role") "assistant"); [|done].
    destruct content; try done.
    by destruct (assistant_items_keep d l) as (_ & _ & ->).
  - intros ->. destruct (Py.eq_str (msg !! "role") "user"); [|done].
    destruct content; try done.
    destruct (user_items_keep d l) as (_ & _ & ->). split; [done|].
    clear. revert d. induction l as [|item l IH]; intros d; [done|].
    simpl. rewrite IH. destruct item as [|b|n|f|s|l'|i]; try done.
    simpl. by destruct (Py.eq_str (i !! "type") "text").
Qed.

Lemma roles_gate_buckets_witness :
  let ev : gmap string json :=
    {[ "role" := JStr "user";
       "content" := JList [JDict {[ "type" := JStr "tool_use";
                                    "name" := JStr "Bash" ]};
                           JStr "run it"] ]} in
  ∃ d', process_event empty_data (JDict ev) = Returns d' ∧
    assistant_messages d' = [] ∧ tool_uses d' = [].
Proof.
  intros ev.
  assert (∃ d', process_event empty_data (JDict ev) = Returns d') as [d' Hstep]
    by (eexists; vm_compute; reflexivity).
  exists d'. split; [done|].
  exact (proj2 (roles_gate_buckets empty_data d' ev ev Hstep eq_refl) eq_refl).
Defined.

(** X12.  A content that is neither text nor a list (a single block given as
    a mapping, a number, a boolean, [null]) adds nothing to the message
    buckets, whatever the role. *)
Theorem other_content_ignored (d : data) (ev msg : gmap string json)
    (content : json) :
  message_of ev = JDict msg →
  msg !! "content" = Some content →
  is_text content = false →
  (∀ items, content ≠ JList items) →
  process_event d (JDict ev) = Returns (by_type ev d).
Proof.
  intros Hmsg Hcontent Htext Hlist.
  rewrite (process_event_mapping d ev msg Hmsg). do 2 f_equal.
  unfold by_role, Py.get_or. rewrite Hcontent. simpl.
  destruct content as [|b|n|f|s|l|i]; try done;
    try (by destruct (Py.eq_str (msg !! "role") "user"),
              (Py.eq_str (msg !! "role") "assistant")).
  by destruct (Hlist l).
Qed.

Lemma other_content_ignored_witness :
  let block := JDict {[ "type" := JStr "text"; "text" := JStr "chose X" ]} in
  let ev : gmap string json :=
    {[ "role" := JStr "assistant"; "content" := block ]} in
  process_event empty_data (JDict ev) = Returns empty_data.
Proof.
  intros block ev.
  rewrite (other_content_ignored empty_data ev ev block);
    [reflexivity|reflexivity|reflexivity|reflexivity|discriminate].
Defined.

(** X13.  The classifier has one way to fail: it returns when every record
    that is a mapping has a [message] that is absent or a mapping, and
    raises [AttributeError] otherwise, at the first record that has not. *)
Theorem extract_fails_on_message_shape_only (events : list json) :
  if forallb classifiable events
  then ∃ d, extract_summary_data events = Returns d
  else extract_summary_data events = Raises AttributeError.
Proof.
  unfold extract_summary_data. generalize empty_data.
  induction events as [|event events IH]; intros d; simpl; [eauto|].
  pose proof (process_event_classifiable d event) as Hstep.
  destruct (classifiable event); simpl.
  - destruct Hstep as [d' ->]. apply IH.
  - by rewrite Hstep.
Qed.

(** ** More on the status line *)

Lemma status_line_fields (d : data) :
  generate_current_state d =
    "**State:** Session with " +:+ Py.str_of_nat (length (tool_uses d)) +:+
    " actions taken | **Errors:** " +:+
    (if 0 <? length (errors d)
     then Py.str_of_nat (length (errors d)) +:+ " encountered" else "None") +:+
    " | **Messages:** " +:+ Py.str_of_nat (length (user_messages d)) +:+
    " exchanges".
Proof.
  unfold generate_current_state.
  destruct (0 <? length (errors d)); rewrite !append_assoc; reflexivity.
Qed.

Lemma all_digits_uint (u : Decimal.uint) :
  all_digits (NilEmpty.string_of_uint u) = true.
Proof. induction u; simpl; done. Qed.

(** A rendered count is a run of digits, and not an empty one. *)
Lemma str_of_nat_digits (n : nat) :
  all_digits (Py.str_of_nat n) = true ∧
  ∃ c s, Py.str_of_nat n = String c s.
Proof.
  unfold Py.str_of_nat, NilZero.string_of_uint.
  destruct (Nat.to_uint n) eqn:Hn; (split; [rewrite <- ?Hn; by rewrite
    ?all_digits_uint|simpl; eauto]).
Qed.

Lemma str_of_nat_inj (n m : nat) : Py.str_of_nat n = Py.str_of_nat m → n = m.
Proof.
  intros Heq. pose proof (read_count_str_of_nat n) as Hn.
  rewrite Heq, read_count_str_of_nat in Hn. by injection Hn.
Qed.

(** Two runs of digits, each followed by a character that is no digit, are
    told apart by the text they open. *)
Lemma digits_then_other (a a' : string) (c c' : ascii) (r r' : string) :
  all_digits a = true → all_digits a' = true →
  Ascii.is_nat c = None → Ascii.is_nat c' = None →
  a +:+ String c r = a' +:+ String c' r' →
  a = a' ∧ String c r = String c' r'.
Proof.
  revert a'. induction a as [|x a IH]; intros [|x' a'] Ha Ha' Hc Hc' Heq.
  - done.
  - rewrite append_cons in Heq. injection Heq as -> _. simpl in Ha'.
    by rewrite Hc in Ha'.
  - rewrite append_cons in Heq. injection Heq as <- _. simpl in Ha.
    by rewrite Hc' in Ha.
  - rewrite !append_cons in Heq. injection Heq as <- Heq.
    simpl in Ha, Ha'. apply andb_true_iff in Ha as [_ Ha].
    apply andb_true_iff in Ha' as [_ Ha'].
    destruct (IH a' Ha Ha' Hc Hc' Heq) as [-> ?]. done.
Qed.

(** The same, for runs of digits followed by one fixed text. *)
Lemma digits_then_text (a a' : string) (c : ascii) (fixed r r' : string) :
  all_digits a = true → all_digits a' = true →
  Ascii.is_nat c = None →
  a +:+ String c fixed +:+ r = a' +:+ String c fixed +:+ r' →
  a = a' ∧ r = r'.
Proof.
  intros Ha Ha' Hc Heq. rewrite !append_cons in Heq.
  apply digits_then_other in Heq as [-> Heq]; [|done..].
  injection Heq as Heq. by apply (inj (String.app fixed)) in Heq.
Qed.

(** X14.  The status line tells the three counts: two aggregates have the
    same line exactly when their tool-invocation buckets, their error
    buckets and their user buckets have the same lengths. *)
Theorem status_line_tells_counts (d d' : data) :
  generate_current_state d = generate_current_state d' ↔
  length (tool_uses d) = length (tool_uses d') ∧
  length (errors d) = length (errors d') ∧
  length (user_messages d) = length (user_messages d').
Proof.
  rewrite !status_line_fields. split.
  2:{ by intros (-> & -> & ->). }
  intros Heq. apply (inj (String.app _)) in Heq.
  destruct (str_of_nat_digits (length (tool_uses d))) as [Ht _].
  destruct (str_of_nat_digits (length (tool_uses d'))) as [Ht' _].
  destruct (str_of_nat_digits (length (errors d))) as [He (ce & se & Hse)].
  destruct (str_of_nat_digits (length (errors d'))) as [He' (ce' & se' & Hse')].
  destruct (str_of_nat_digits (length (user_messages d))) as [Hu _].
  destruct (str_of_nat_digits (length (user_messages d'))) as [Hu' _].
  apply digits_then_text in Heq as [Htools Heq]; [|done..].
  apply str_of_nat_inj in Htools.
  assert (length (errors d) = length (errors d') ∧
          Py.str_of_nat (length (user_messages d)) +:+ " exchanges" =
          Py.str_of_nat (length (user_messages d')) +:+ " exchanges")
    as [Herrors Heq'].
  { destruct (0 <? length (errors d)) eqn:Hpos;
      destruct (0 <? length (errors d')) eqn:Hpos'.
    - rewrite !append_assoc in Heq.
      apply digits_then_text in Heq as [Herrors Heq]; [|done..].
      apply str_of_nat_inj in Herrors. split; [done|].
      by apply (inj (String.app " | **Messages:** ")) in Heq.
    - rewrite append_assoc, Hse in Heq. rewrite Hse in He.
      change ("None" +:+ ?x) with (String "N" ("one" +:+ x)) in Heq.
      rewrite append_cons in Heq. injection Heq as -> _. done.
    - rewrite append_assoc, Hse' in Heq. rewrite Hse' in He'.
      change ("None" +:+ ?x) with (String "N" ("one" +:+ x)) in Heq.
      rewrite append_cons in Heq. injection Heq as <- _. done.
    - apply Nat.ltb_ge in Hpos, Hpos'. split; [lia|].
      apply (inj (String.app "None")) in Heq.
      by apply (inj (String.app " | **Messages:** ")) in Heq. }
  change (?x +:+ " exchanges") with (x +:+ " exchanges" +:+ "") in Heq'.
  apply digits_then_text in Heq' as [Husers _]; [|done..].
  apply str_of_nat_inj in Husers. done.
Qed.

(** ** More on the decision list *)

Lemma decision_loop_outcome (msgs : list json) (acc : list string) :
  if forallb is_text msgs
  then ∃ lines, for_in decision_step msgs acc = Returns lines
  else for_in decision_step msgs acc = Raises AttributeError.
Proof.
  revert acc. induction msgs as [|msg msgs IH]; intros acc; simpl; [eauto|].
  destruct msg as [|b|n|f|s|l|i]; simpl; try done.
  destruct (mentions_keyword s); simpl; apply IH.
Qed.

(** X15.  The decision generator returns when every entry of the assistant
    bucket is text and raises [AttributeError] otherwise, also when the
    entries in front of the offending one mention keywords. *)
Theorem decisions_need_text (d : data) :
  if forallb is_text (assistant_messages d)
  then ∃ section, generate_decisions_section d = Returns section
  else generate_decisions_section d = Raises AttributeError.
Proof.
  unfold generate_decisions_section, decision_list.
  pose proof (decision_loop_outcome (assistant_messages d) []) as Hloop.
  destruct (forallb is_text (assistant_messages d)).
  - destruct Hloop as [lines ->]. simpl. eauto.
  - by rewrite Hloop.
Qed.

Lemma length_snippet (msg : string) : String.length (snippet msg) ≤ 203.
Proof.
  unfold snippet. destruct (200 <? String.length msg) eqn:Hlen.
  - rewrite length_append, length_slice_to.
    change (String.length "...") with 3. lia.
  - apply Nat.ltb_ge in Hlen. lia.
Qed.

Lemma decision_loop_bounds (msgs : list json) (acc lines : list string) :
  for_in decision_step msgs acc = Returns lines →
  Forall (λ line, String.length line ≤ 205 ∧
                  String.prefix "- " line = true) acc →
  length lines ≤ length acc + length msgs ∧
  Forall (λ line, String.length line ≤ 205 ∧
                  String.prefix "- " line = true) lines.
Proof.
  revert acc. induction msgs as [|msg msgs IH]; intros acc Hrun Hacc.
  { simplify_eq/=. split; [lia|done]. }
  destruct msg as [|b|n|f|s|l|i]; simplify_eq/=.
  destruct (mentions_keyword s); simpl in Hrun.
  - destruct (IH _ Hrun) as [Hlen Hall].
    + apply Forall_app. split; [done|]. apply Forall_singleton.
      rewrite length_append, prefix_append. simpl.
      pose proof (length_snippet s). split; [lia|done].
    + rewrite length_app in Hlen. simpl in Hlen. split; [lia|done].
  - destruct (IH _ Hrun Hacc) as [Hlen Hall]. split; [lia|done].
Qed.

(** X16.  What the decision generator lists is bounded: at least one line,
    no more lines than the assistant bucket has entries (one, when it has
    none), each line opening with the bullet and at most 205 characters
    long. *)
Theorem decision_lines_bounded (d : data) (lines : list string) :
  decision_list d = Returns lines →
  1 ≤ length lines ∧
  length lines ≤ length (assistant_messages d) `max` 1 ∧
  Forall (λ line, String.length line ≤ 205 ∧
                  String.prefix "- " line = true) lines.
Proof.
  unfold decision_list. intros Hrun.
  destruct (for_in decision_step (assistant_messages d) []) as [found|e]
    eqn:Hloop; simplify_eq/=.
  destruct (decision_loop_bounds _ _ _ Hloop) as [Hlen Hall]; [done|].
  destruct found as [|line found]; simpl in *.
  - split_and!; [lia|lia|]. apply Forall_singleton.
    split; [vm_compute; lia|reflexivity].
  - split_and!; [lia|lia|done].
Qed.

Lemma decision_lines_bounded_witness :
  let d := {| user_messages := [];
              assistant_messages := [JStr "thinking"; JStr "Selected plan B"];
              tool_uses := []; tool_results := []; errors := [] |} in
  ∃ lines, decision_list d = Returns lines ∧
    1 ≤ length lines ∧ length lines ≤ 2.
Proof.
  intros d. exists ["- Selected plan B"].
  assert (decision_list d = Returns ["- Selected plan B"]) as Hrun
    by (vm_compute; reflexivity).
  split; [done|].
  destruct (decision_lines_bounded d _ Hrun) as (Hone & Hmax & _). done.
Defined.

(** ** More on the narrative and the document *)

Lemma text_is_sizable (msgs : list json) :
  forallb is_text msgs = true → forallb sizable msgs = true.
Proof.
  induction msgs as [|msg msgs IH]; [done|]. simpl.
  intros [Hmsg Hrest]%andb_true_iff. rewrite (IH Hrest).
  by destruct msg.
Qed.

Section NarrativeOutcome.

Variable py_str : json → string.
Variable d : data.

Lemma assistant_line_outcome (msg : json) :
  if sizable msg
  then ∃ line, assistant_line py_str msg = Returns line
  else ∃ e, assistant_line py_str msg = Raises e ∧ e ≠ AttributeError.
Proof.
  destruct msg as [|b|n|f|s|l|m]; simpl; eauto;
    destruct (500 <? _); simpl; eauto.
Qed.

(** One iteration from any state of any aggregate: it raises exactly when
    the assistant entry at the index cannot be sized and labelled, and
    otherwise moves each index that has an entry under it. *)
Lemma narrative_body_outcome (st : cursor) :
  let moved_user :=
    if user_messages d !! user_idx st is Some _
    then S (user_idx st) else user_idx st in
  match assistant_messages d !! assistant_idx st with
  | Some msg =>
      if sizable msg
      then ∃ st', narrative_body py_str d st = Returns st' ∧
             user_idx st' = moved_user ∧
             assistant_idx st' = S (assistant_idx st)
      else ∃ e, narrative_body py_str d st = Raises e ∧ e ≠ AttributeError
  | None =>
      ∃ st', narrative_body py_str d st = Returns st' ∧
        user_idx st' = moved_user ∧ assistant_idx st' = assistant_idx st
  end.
Proof.
  unfold narrative_body.
  destruct (user_messages d !! user_idx st) as [u|];
    cbn [user_idx assistant_idx narrative];
    (destruct (assistant_messages d !! assistant_idx st) as [msg|];
     [pose proof (assistant_line_outcome msg) as Hline;
      destruct (sizable msg);
      [destruct Hline as [line ->]|destruct Hline as (e & -> & He)]|]);
    simpl; eauto.
Qed.

(** The loop from any state, with fuel for the entries not yet read: it is
    left by its condition when all assistant entries still to come can be
    sized, and by an exception that is not [AttributeError] otherwise. *)
Lemma narrative_loop_outcome (fuel : nat) (st : cursor) :
  (length (user_messages d) - user_idx st) +
  (length (assistant_messages d) - assistant_idx st) ≤ fuel →
  if forallb sizable (unread d st)
  then ∃ st', narrative_loop py_str fuel d st = Some (Returns st')
  else ∃ e, narrative_loop py_str fuel d st = Some (Raises e) ∧
            e ≠ AttributeError.
Proof.
  revert st. induction fuel as [|fuel IH]; intros st Hfuel.
  - assert (narrative_cond d st = false) as Hcond.
    { unfold narrative_cond. apply orb_false_iff.
      split; apply Nat.ltb_ge; lia. }
    unfold unread. rewrite drop_ge by lia. simpl. rewrite Hcond. eauto.
  - simpl. destruct (narrative_cond d st) eqn:Hcond.
    2:{ unfold narrative_cond in Hcond.
        apply orb_false_iff in Hcond as [_ Ha%Nat.ltb_ge].
        unfold unread. rewrite drop_ge by lia. simpl. eauto. }
    pose proof (narrative_body_outcome st) as Hbody. simpl in Hbody.
    unfold unread.
    destruct (assistant_messages d !! assistant_idx st) as [msg|] eqn:Hmsg.
    + rewrite (drop_S _ _ _ Hmsg). simpl.
      pose proof (lookup_lt_Some _ _ _ Hmsg) as Hlt.
      destruct (sizable msg); simpl.
      * destruct Hbody as (st' & -> & Hu & Ha).
        specialize (IH st'). unfold unread in IH. rewrite Ha in IH.
        apply IH. rewrite Hu.
        destruct (user_messages d !! user_idx st); lia.
      * destruct Hbody as (e & -> & He). eauto.
    + apply lookup_ge_None in Hmsg.
      destruct Hbody as (st' & -> & Hu & Ha).
      specialize (IH st'). unfold unread in IH. rewrite Ha in IH.
      rewrite drop_ge in * by lia. apply IH. rewrite Hu.
      unfold narrative_cond in Hcond.
      apply orb_true_iff in Hcond as [Hlt%Nat.ltb_lt|Hlt%Nat.ltb_lt]; [|lia].
      destruct (lookup_lt_is_Some_2 _ _ Hlt) as [u ->]. lia.
Qed.

End NarrativeOutcome.

(** X17.  The narrative loop ends on every aggregate, whatever its buckets
    hold.  It returns when every assistant entry is text, or a list or a
    mapping of at most 500 items; otherwise it raises, and never
    [AttributeError].  No entry of the user bucket makes it raise. *)
Theorem narrative_outcome (py_str : json → string) (d : data) :
  if forallb sizable (assistant_messages d)
  then ∃ text, generate_narrative_section py_str d = Some (Returns text)
  else ∃ e, generate_narrative_section py_str d = Some (Raises e) ∧
            e ≠ AttributeError.
Proof.
  unfold generate_narrative_section, narrative_list.
  pose proof (narrative_loop_outcome py_str d
                (length (user_messages d) + length (assistant_messages d))
                {| user_idx := 0; assistant_idx := 0; narrative := [] |})
    as Hloop.
  unfold unread in Hloop. cbn [assistant_idx user_idx] in Hloop.
  change (drop 0 ?l) with l in Hloop. specialize (Hloop ltac:(lia)).
  destruct (forallb sizable (assistant_messages d)).
  - destruct Hloop as [st' ->]. simpl. eauto.
  - destruct Hloop as (e & -> & He). simpl. eauto.
Qed.

(** X18.  The summary has one way to fail.  When every assistant entry is
    text, the three generators return and the document is the template
    around their three texts; otherwise the decision generator raises
    [AttributeError] before the narrative is built, so the [TypeError] of
    the narrative is never what leaves [generate_markdown_summary]. *)
Theorem summary_outcome (py_str : json → string) (d : data)
    (timestamp : string) :
  if forallb is_text (assistant_messages d)
  then ∃ decisions narrative,
         generate_decisions_section d = Returns decisions ∧
         generate_narrative_section py_str d = Some (Returns narrative) ∧
         generate_markdown_summary py_str d timestamp =
           Some (Returns (markdown_template timestamp
                            (generate_current_state d) decisions narrative))
  else generate_markdown_summary py_str d timestamp
         = Some (Raises AttributeError).
Proof.
  unfold generate_markdown_summary, generate_decisions_section, decision_list.
  pose proof (decision_loop_outcome (assistant_messages d) []) as Hdec.
  pose proof (text_is_sizable (assistant_messages d)) as Hsizable.
  destruct (forallb is_text (assistant_messages d)).
  - destruct Hdec as [lines ->]. simpl.
    unfold generate_narrative_section, narrative_list.
    pose proof (narrative_loop_outcome py_str d
                  (length (user_messages d) + length (assistant_messages d))
                  {| user_idx := 0; assistant_idx := 0; narrative := [] |})
      as Hloop.
    unfold unread in Hloop. cbn [assistant_idx user_idx] in Hloop.
  change (drop 0 ?l) with l in Hloop. specialize (Hloop ltac:(lia)).
    rewrite Hsizable in Hloop by done.
    destruct Hloop as [st' ->]. simpl. eauto.
  - by rewrite Hdec.
Qed.

(** ** More on the parser *)

(** X19.  Parsing follows the log.  The run over two logs end to end is the
    run over the first continued by the run over the second: when both are
    read to their end, the records and the warnings are those of the first
    followed by those of the second; when the second ends with an
    exception, so does the whole, the records of the first are lost and
    the warnings of both have been printed; when the first ends with an
    exception, the second is not read. *)
Theorem parse_concatenation (loads : string → decoded)
    (log_file more : list read) :
  parse_session_log loads (log_file ++ more) =
    continued (parse_session_log loads log_file)
      (parse_session_log loads more) ∧
  (∀ events warnings events' warnings',
     parse_session_log loads log_file = (Events events, warnings) →
     parse_session_log loads more = (Events events', warnings') →
     parse_session_log loads (log_file ++ more)
       = (Events (events ++ events'), warnings ++ warnings')) ∧
  (∀ events warnings e warnings',
     parse_session_log loads log_file = (Events events, warnings) →
     parse_session_log loads more = (Aborted e, warnings') →
     parse_session_log loads (log_file ++ more)
       = (Aborted e, warnings ++ warnings')) ∧
  (∀ e warnings,
     parse_session_log loads log_file = (Aborted e, warnings) →
     parse_session_log loads (log_file ++ more) = (Aborted e, warnings)).
Proof.
  rewrite parse_session_log_app. split_and!; [done|..].
  - by intros events warnings events' warnings' -> ->.
  - by intros events warnings e warnings' -> ->.
  - by intros e warnings ->.
Qed.

Lemma last_char_rev_app (s t : string) (c : ascii) :
  last_char (String c t) = last_char (String.rev_app s (String c t)).
Proof.
  revert c t. induction s as [|x s IH]; intros c t; [done|].
  simpl String.rev_app. by rewrite <- IH.
Qed.

Lemma rev_app_head (s t : string) (c : ascii) :
  last_char s = Some c → ∃ r, String.rev_app s t = String c r.
Proof.
  revert t. induction s as [|x s IH]; intros t Hlast; [done|].
  destruct s as [|y s]; [simplify_eq/=; eauto|].
  simpl String.rev_app. apply (IH (String x t)). done.
Qed.

(** [lstrip] keeps the end of what it does not take whole. *)
Lemma last_char_lstrip (s : string) (c : ascii) (t : string) :
  Py.lstrip s = String c t → last_char (Py.lstrip s) = last_char s.
Proof.
  induction s as [|x s IH]; [done|]. simpl.
  destruct (Py.isspace x); [|done].
  intros Hs. rewrite (IH Hs). rewrite <- Hs in *.
  destruct s; [done|]. done.
Qed.

(** What [strip] leaves of a line that is not blank is trimmed. *)
Lemma strip_trimmed (s : string) :
  whitespace_only s = false → trimmed (Py.strip s) = true.
Proof.
  intros Hs. unfold Py.strip.
  destruct (lstrip_inked s Hs) as (c & t & -> & Hc).
  assert (last_char (String.rev (String c t)) = Some c) as Hlast.
  { unfold String.rev. simpl String.rev_app.
    by rewrite <- (last_char_rev_app t "" c). }
  destruct (lstrip_inked (String.rev (String c t))) as (c' & t' & Hy & Hc').
  { unfold String.rev. rewrite whitespace_only_rev_app. simpl. by rewrite Hc. }
  pose proof (last_char_lstrip _ _ _ Hy) as Hlast'. rewrite Hlast in Hlast'.
  rewrite Hy in *.
  destruct (rev_app_head (String c' t') "" c Hlast') as [r Hr].
  assert (last_char (String.rev (String c' t')) = Some c') as Hend.
  { unfold String.rev. simpl String.rev_app.
    by rewrite <- (last_char_rev_app t' "" c'). }
  unfold String.rev in Hend |- *. rewrite Hr in Hend |- *.
  unfold trimmed. by rewrite Hend, Hc, Hc'.
Qed.

(** X20.  The decoder is only ever handed trimmed text: what the parser
    returns does not depend on what the decoder would answer on an empty
    text or on a text that begins or ends with white space. *)
Theorem decoder_sees_trimmed_text (loads loads' : string → decoded)
    (log_file : list read) :
  (∀ s, trimmed s = true → loads s = loads' s) →
  parse_session_log loads log_file = parse_session_log loads' log_file.
Proof.
  intros Hagree. unfold parse_session_log.
  generalize ([] : list json, [] : list string).
  induction log_file as [|[line|e] log_file IH]; intros acc; [done| |done].
  cbn [parse_lines].
  assert (parse_line loads acc line = parse_line loads' acc line) as ->.
  { unfold parse_line. rewrite strip_blank.
    destruct (whitespace_only line) eqn:Hline; [done|]. simpl.
    by rewrite (Hagree _ (strip_trimmed line Hline)). }
  destruct (parse_line loads' acc line); [apply IH|done].
Qed.

Lemma decoder_sees_trimmed_text_witness :
  let loads s := if String.eqb s "null" then Value JNull
                 else JSONDecodeError "Expecting value" in
  let loads' s := if trimmed s then loads s else Value (JBool true) in
  parse_session_log loads [Line "  null "; Line ""; Line " x"] =
    parse_session_log loads' [Line "  null "; Line ""; Line " x"].
Proof.
  intros loads loads'. apply decoder_sees_trimmed_text.
  intros s Hs. unfold loads'. by rewrite Hs.
Defined.

(** X21.  A log that is read to its end and has no decodable line (an
    empty one, say) still gives a summary: no record, the empty aggregate,
    and the document with all counts at zero, the placeholder for the
    decisions and an empty narrative, while each line that is not blank
    has given one warning. *)
Theorem log_without_records (loads : string → decoded)
    (py_str : json → string) (log_file : list read) (timestamp : string) :
  without_fatal loads log_file = true →
  List.filter (is_decodable loads) log_file = [] →
  ∃ warnings,
    parse_session_log loads log_file = (Events [], warnings) ∧
    length warnings =
      length (List.filter (λ step, negb (is_blank loads step)) log_file) ∧
    extract_summary_data [] = Returns empty_data ∧
    generate_markdown_summary py_str empty_data timestamp =
      Some (Returns (markdown_template timestamp
        "**State:** Session with 0 actions taken | **Errors:** None | **Messages:** 0 exchanges"
        "- No explicit decisions recorded in this session" "")).
Proof.
  intros Hread Hnone. rewrite (parse_without_fatal loads log_file Hread).
  pose proof (records_count loads log_file) as Hevents.
  rewrite Hnone in Hevents. apply length_zero_iff_nil in Hevents.
  rewrite Hevents. eexists. split_and!; [done| |done|done].
  rewrite warnings_count. clear Hevents. unfold without_fatal in Hread.
  induction log_file as [|step log_file IH]; [done|].
  cbn [forallb List.filter] in *.
  apply andb_true_iff in Hread as [Hstep Hrest].
  unfold is_fatal, is_decodable, is_undecodable, is_blank in *.
  destruct (kind_of loads step); simpl in *; try done; auto.
Qed.

Lemma log_without_records_witness :
  let loads (s : string) := JSONDecodeError "Expecting value" in
  ∃ warnings,
    parse_session_log loads [Line "{oops"; Line "   "; Line "]"]
      = (Events [], warnings) ∧
    length warnings = 2.
Proof.
  intros loads.
  destruct (log_without_records loads (λ _, "")
              [Line "{oops"; Line "   "; Line "]"] "t" eq_refl eq_refl)
    as (warnings & Hevents & Hwarnings & _).
  exists warnings. split; [exact Hevents|exact Hwarnings].
Defined.

(** X22.  Lines that do not decode are skipped with a warning, as long as
    the log is read to its end.  For a log that the file gives line by
    line and on no line of which the decoder raises anything but
    [JSONDecodeError]: the parser returns; the records are the values of
    the decodable lines in the order of the log, the same as for the log
    of the decodable lines alone, one for each of them; the log of the
    decodable lines alone gives no warning, the full log gives one warning
    for each line that does not decode, and taking the lines of white
    space out changes neither the records nor the warnings. *)
Theorem bad_lines_are_skipped (loads : string → decoded)
    (log_file : list read) :
  without_fatal loads log_file = true →
  let valid := List.filter (is_decodable loads) log_file in
  let invalid := List.filter (is_undecodable loads) log_file in
  let written := List.filter (λ step, negb (is_blank loads step)) log_file in
  ∃ events warnings,
    parse_session_log loads log_file = (Events events, warnings) ∧
    parse_session_log loads valid = (Events events, []) ∧
    parse_session_log loads written = (Events events, warnings) ∧
    length events = length valid ∧
    length warnings = length invalid ∧
    events = mjoin (record_of loads <$> log_file) ∧
    warnings = mjoin (warning_of loads <$> log_file).
Proof.
  intros Hread valid invalid written. eexists _, _.
  split_and!; [by apply parse_without_fatal| | | | |done|done].
  - unfold valid. rewrite parse_without_fatal by (by apply filter_without_fatal).
    set (keep := λ k, match k with Decodable => true | _ => false end).
    change (List.filter (is_decodable loads) log_file) with
      (List.filter (λ step, keep (kind_of loads step)) log_file).
    by rewrite (records_filtered loads keep), (warnings_filtered loads keep).
  - unfold written.
    rewrite parse_without_fatal by (by apply filter_without_fatal).
    set (keep := λ k, match k with Blank => false | _ => true end).
    assert (List.filter (λ step, negb (is_blank loads step)) log_file =
            List.filter (λ step, keep (kind_of loads step)) log_file) as ->.
    { apply filter_ext. intros step. unfold is_blank.
      by destruct (kind_of loads step). }
    by rewrite (records_filtered loads keep), (warnings_filtered loads keep).
  - apply records_count.
  - apply warnings_count.
Qed.

Lemma bad_lines_are_skipped_witness :
  let loads line :=
    if String.eqb line "null" then Value JNull
    else if String.eqb line "true" then Value (JBool true)
    else JSONDecodeError "Expecting value" in
  let nl := String "010"%char "" in
  ∃ events warnings,
    parse_session_log loads
      [Line ("null" +:+ nl); Line ("   " +:+ nl); Line ("{oops" +:+ nl);
       Line nl; Line ("  true  " +:+ nl); Line "]"]
      = (Events events, warnings) ∧
    events = [JNull; JBool true] ∧
    length warnings = 2.
Proof.
  intros loads nl.
  destruct (bad_lines_are_skipped loads
              [Line ("null" +:+ nl); Line ("   " +:+ nl);
               Line ("{oops" +:+ nl); Line nl; Line ("  true  " +:+ nl);
               Line "]"] eq_refl)
    as (events & warnings & Hrun & _ & _ & _ & Hwarnings & Hevents & _).
  exists events, warnings. split_and!; [exact Hrun|exact Hevents|exact Hwarnings].
Defined.
